(** * pyproteolizard: the Python interface of proteolizard-data

    A shallow embedding of [pyproteolizard/data.py] and of the part of the
    native library [libproteolizard] it wraps, with the properties of the
    data model stated and proved against that embedding.

    Layout:
    - [result], [exn]: Python exceptions as an error monad;
    - [Binning], [Native]: the native library, whose sources are not part of
      the Python package; every definition there says what it is modelled
      from;
    - [pyobj] and the wrapper classes of [data.py], translated method by
      method;
    - the properties. *)

From Stdlib Require Import QArith Qround Qabs Qpower Lqa.
From stdpp Require Import base option list gmap strings.

Local Open Scope Z_scope.

(** ** Exceptions and results *)

(** The exceptions that can reach a caller of [data.py].  [KeyError],
    [AttributeError] and [ValueError] are Python's own; [NotFound],
    [IdentityMismatch] and [InvalidRange] are the error kinds of the native
    library; [ExternalError] stands for whatever a collaborator (sqlite,
    pandas, the Bruker bridge, the native constructor) raises.  All of them
    are subclasses of Python's [Exception]. *)
Inductive exn :=
| KeyError (key : Z)
| AttributeError (name : string)
| ValueError (msg : string)
| NotFound (frame_id : Z)
| IdentityMismatch (left_id right_id : Z)
| InvalidRange
| ExternalError (msg : string).

Inductive result (A : Type) :=
| Ok (a : A)
| Raise (e : exn).
Arguments Ok {A} a.
Arguments Raise {A} e.

#[global] Instance result_ret : MRet result := λ A a, Ok a.
#[global] Instance result_bind : MBind result := λ A B f r,
  match r with Ok a => f a | Raise e => Raise e end.
#[global] Instance result_fmap : FMap result := λ A B f r,
  match r with Ok a => Ok (f a) | Raise e => Raise e end.

(** [[f x for x in xs]] where [f] may raise: elements are evaluated from left
    to right and the first exception ends the comprehension. *)
Fixpoint comprehension {A B} (f : A → result B) (xs : list A) : result (list B) :=
  match xs with
  | [] => Ok []
  | x :: xs' => y ← f x; ys ← comprehension f xs'; Ok (y :: ys)
  end.

(** ** Coordinate binning *)

Module Binning.

(** Modelled from the spec: the native rounding function is not part of the
    Python package.  Of the two tie rules the spec allows, this is
    half-away-from-zero. *)
Definition round (x : Q) : Z :=
  if Qle_bool 0 x then Qfloor (x + (1 # 2)) else - Qfloor (- x + (1 # 2)).

(** Modelled from the spec: [bin(value, resolution)] is
    [round(value * 10^resolution)]; the native binning is not part of the
    Python package. *)
Definition bin (value : Q) (resolution : Z) : Z :=
  round (value * 10 ^ resolution).

(** Modelled from the spec: [unbin(index, resolution)] is
    [index / 10^resolution]. *)
Definition unbin (index : Z) (resolution : Z) : Q :=
  inject_Z index / 10 ^ resolution.

End Binning.

(** ** The native library

    [data.py] wraps objects of [libproteolizard].  Its sources are not part of
    the Python package, so the objects and the operations that the properties
    below depend on are modelled from the specification of the data model. *)

Module Native.

(** Modelled from the spec: one detected ion event of a Frame, with its
    drift-time index, mass-to-charge value, intensity and inverse ion
    mobility.  Real-valued fields are rationals. *)
Record Event := {
  scan : Z;
  mass : Q;
  intensity : Q;
  inverse_mobility : Q
}.

Module Frame.

(** Modelled from the spec: a Frame is a [frame_id] and an ordered
    sequence of events.  The native class keeps parallel arrays of equal
    length; a list of events is that invariant by construction. *)
Record t := { frame_id : Z; events : list Event }.

(** Modelled from the spec: the native getters of a Frame return its id and
    its parallel arrays, one entry per event in event order. *)
Definition getFrameId (f : t) : Z := frame_id f.
Definition getScans (f : t) : list Z := scan <$> events f.
Definition getMzs (f : t) : list Q := mass <$> events f.
Definition getIntensities (f : t) : list Q := intensity <$> events f.
Definition getInverseMobilities (f : t) : list Q :=
  inverse_mobility <$> events f.

(** Modelled from the spec: the native [+] on frames.  It requires
    identical [frame_id]s and fails with [IdentityMismatch], naming both
    ids, otherwise; the events of both operands are concatenated, without
    deduplication and without accumulation. *)
Definition add (x y : t) : result t :=
  if decide (frame_id x = frame_id y)
  then Ok {| frame_id := frame_id x; events := events x ++ events y |}
  else Raise (IdentityMismatch (frame_id x) (frame_id y)).

(** Modelled from the spec: the events retained by [filter_ranged]: scan
    and mass within their inclusive bounds, intensity at least
    [intensity_min]. *)
Definition in_range (scan_min scan_max : Z) (mz_min mz_max intensity_min : Q)
    (e : Event) : bool :=
  (scan_min <=? scan e) && (scan e <=? scan_max)
  && Qle_bool mz_min (mass e) && Qle_bool (mass e) mz_max
  && Qle_bool intensity_min (intensity e).

(** Modelled from the spec: [filterRanged] returns a new Frame with the
    same [frame_id] and only the matching events, in their relative
    order; bounds with min > max are an [InvalidRange]. *)
Definition filterRanged (f : t) (scan_min scan_max : Z)
    (mz_min mz_max intensity_min : Q) : result t :=
  if (scan_min <=? scan_max) && Qle_bool mz_min mz_max
  then Ok {| frame_id := frame_id f;
             events := List.filter
               (in_range scan_min scan_max mz_min mz_max intensity_min)
               (events f) |}
  else Raise InvalidRange.

(** Modelled from the spec: one bucket of a resolution-reduced frame, for
    the events of one scan whose masses have the same bin index, with their
    accumulated intensity and the retained inverse mobility. *)
Record Bucket := {
  b_scan : Z;
  b_index : Z;
  b_intensity : Q;
  b_inverse_mobility : Q
}.

(** Modelled from the spec: the bucket that one event falls into, by
    binning its mass. *)
Definition bucket_of (resolution : Z) (e : Event) : Bucket :=
  {| b_scan := scan e;
     b_index := Binning.bin (mass e) resolution;
     b_intensity := intensity e;
     b_inverse_mobility := inverse_mobility e |}.

(** Modelled from the spec: two events collide when they have the same
    scan and the same bin index. *)
Definition same_bucket (a b : Bucket) : bool :=
  (b_scan a =? b_scan b) && (b_index a =? b_index b).

(** Modelled from the spec: an event that collides with a bucket (same
    scan, same bin index) adds its intensity to it and the bucket keeps
    the inverse mobility of its first event; an event that collides with
    none opens a new bucket after the existing ones. *)
Fixpoint accumulate (bs : list Bucket) (b : Bucket) : list Bucket :=
  match bs with
  | [] => [b]
  | b' :: bs' =>
      if same_bucket b' b
      then {| b_scan := b_scan b';
              b_index := b_index b';
              b_intensity := (b_intensity b' + b_intensity b)%Q;
              b_inverse_mobility := b_inverse_mobility b' |} :: bs'
      else b' :: accumulate bs' b
  end.

(** Modelled from the spec: the buckets of a sequence of events, taken in
    event order. *)
Definition buckets (resolution : Z) (es : list Event) : list Bucket :=
  foldl accumulate [] (bucket_of resolution <$> es).

(** Modelled from the spec: the event that stands for a bucket; its mass is
    the unbinned index. *)
Definition event_of (resolution : Z) (b : Bucket) : Event :=
  {| scan := b_scan b;
     mass := Binning.unbin (b_index b) resolution;
     intensity := b_intensity b;
     inverse_mobility := b_inverse_mobility b |}.

(** Modelled from the spec: [toResolution] bins every mass, sums the
    intensities of the events of one scan that fall into one bucket, and
    returns a Frame with one event per bucket, in order of first
    occurrence, whose mass is the bucket's representative value. *)
Definition toResolution (f : t) (resolution : Z) : t :=
  {| frame_id := frame_id f;
     events := event_of resolution <$> buckets resolution (events f) |}.

End Frame.

Module Points.

(** Modelled from the spec: one row of the point table, for one retained
    event. *)
Record Point := {
  p_frame : Z;
  p_scan : Z;
  p_mass : Q;
  p_inverse_mobility : Q;
  p_intensity : Q
}.

(** Modelled from the spec: the point table, row by row. *)
Definition t := list Point.

(** Modelled from the spec: the native getters of the point table return
    its columns, one entry per row in row order. *)
Definition getFrames (ps : t) : list Z := p_frame <$> ps.
Definition getScans (ps : t) : list Z := p_scan <$> ps.
Definition getMz (ps : t) : list Q := p_mass <$> ps.
Definition getInvIonMobility (ps : t) : list Q := p_inverse_mobility <$> ps.
Definition getIntensity (ps : t) : list Q := p_intensity <$> ps.

End Points.

Module Slice.

(** Modelled from the spec: a Slice is an ordered collection of precursor
    Frames and an ordered collection of fragment Frames. *)
Record t := { precursors : list Frame.t; fragments : list Frame.t }.

(** Modelled from the spec: the two getters return the respective
    partition. *)
Definition getPrecursors (s : t) : list Frame.t := precursors s.
Definition getFragments (s : t) : list Frame.t := fragments s.

(** Modelled from the spec: Slice-level [filterRanged] applies the
    Frame-level one to every precursor and every fragment Frame and keeps
    the partitioning; Frames that become empty stay. *)
Definition filterRanged (s : t) (scan_min scan_max : Z)
    (mz_min mz_max intensity_min : Q) : result t :=
  let filter_frame f :=
    Frame.filterRanged f scan_min scan_max mz_min mz_max intensity_min in
  ps ← comprehension filter_frame (precursors s);
  fs ← comprehension filter_frame (fragments s);
  Ok {| precursors := ps; fragments := fs |}.

(** Modelled from the spec: the row of one event, with the id of its
    Frame. *)
Definition point_of (f : Frame.t) (e : Event) : Points.Point :=
  {| Points.p_frame := Frame.frame_id f;
     Points.p_scan := scan e;
     Points.p_mass := mass e;
     Points.p_inverse_mobility := inverse_mobility e;
     Points.p_intensity := intensity e |}.

(** Modelled from the spec: the rows of a sequence of Frames, in Frame
    order and within a Frame in event order. *)
Definition points_of (fs : list Frame.t) : Points.t :=
  f ← fs; point_of f <$> Frame.events f.

(** Modelled from the spec: the projection flattens one partition (the
    precursor Frames when the flag is set, the fragment Frames otherwise)
    into rows, in Frame order and within a Frame in event order. *)
Definition getPoints (s : t) (precursor : bool) : Points.t :=
  points_of (if precursor then precursors s else fragments s).

End Slice.

Module Handle.

(** Modelled from the spec: the binary frame storage, as the events it
    holds for each frame id. *)
Record t := { storage : gmap Z (list Event) }.

(** Modelled from the spec: fetching a frame that the storage does not
    hold fails with [NotFound], naming the id. *)
Definition getFrame (h : t) (frame_id : Z) : result Frame.t :=
  match storage h !! frame_id with
  | Some es => Ok {| Frame.frame_id := frame_id; Frame.events := es |}
  | None => Raise (NotFound frame_id)
  end.

(** Modelled from the spec: a Slice is assembled from the named Frames;
    any missing id fails the whole call. *)
Definition getSlice (h : t) (precursor_ids fragment_ids : list Z)
    : result Slice.t :=
  ps ← comprehension (getFrame h) precursor_ids;
  fs ← comprehension (getFrame h) fragment_ids;
  Ok {| Slice.precursors := ps; Slice.fragments := fs |}.

End Handle.

(** Modelled from the spec: one scan's sparse list of (mass, intensity)
    pairs with its identity. *)
Record Spectrum := {
  s_frame_id : Z;
  s_scan_id : Z;
  s_peaks : list (Q * Q)
}.

(** Modelled from the spec: a resolution-reduced spectrum as (bucket index,
    accumulated value) pairs. *)
Record SparseVector := {
  v_frame_id : Z;
  v_scan_id : Z;
  v_resolution : Z;
  v_entries : list (Z * Q)
}.

(** Modelled from the spec: one Sparse Vector per scan of the source
    Frame. *)
Record VectorizedFrame := {
  vf_frame_id : Z;
  vf_resolution : Z;
  vf_vectors : list SparseVector
}.

(** The native operations on which no property below depends are a
    parameter: the wrapper methods that call them are stated for every
    implementation. *)
Class Operations := {
  spectrum_add : Spectrum → Spectrum → result Spectrum;
  spectrum_toResolution : Spectrum → Z → result Spectrum;
  vector_add : SparseVector → SparseVector → result SparseVector;
  vframe_filterRanged :
    VectorizedFrame → Z → Z → Z → Z → Q → result VectorizedFrame;
  vframe_getSpectra : VectorizedFrame → result (list SparseVector);
  vframe_add : VectorizedFrame → VectorizedFrame → result VectorizedFrame;
  frame_vectorize : Frame.t → Z → result VectorizedFrame;
  frame_fold : Frame.t → Z → Z → result Frame.t;
  frame_getMzSpectra : Frame.t → result (list Spectrum)
}.

End Native.

(** ** Python values *)

(** An object of the native library, as Python code holds it. *)
Inductive native :=
| NSpectrum (s : Native.Spectrum)
| NVector (v : Native.SparseVector)
| NVectorizedFrame (f : Native.VectorizedFrame)
| NFrame (f : Native.Frame.t)
| NSlice (s : Native.Slice.t)
| NPoints (p : Native.Points.t).

(** The values that the methods of [data.py] take and return.  An instance of
    a wrapper class is the class applied to the one private attribute that its
    [__init__] stores, as in the source. *)
#[warnings="-register-all"]
Inductive pyobj :=
| PyInt (z : Z)
| PyFloat (q : Q)
| PyList (items : list pyobj)
| DataFrame (columns : list (string * list pyobj))
| PyNative (n : native)
| MzSpectrum (spec_pointer : Native.Spectrum)
| MzVector (vec_pointer : Native.SparseVector)
| VectorizedTimsFrame (vec_frame_pointer : Native.VectorizedFrame)
| TimsFrame (frame_pointer : Native.Frame.t)
| TimsSlice (slice_ptr : Native.Slice.t)
| Points3D (point_ptr : Native.Points.t).

Inductive pyclass :=
| cls_MzSpectrum
| cls_MzVector
| cls_VectorizedTimsFrame
| cls_TimsFrame
| cls_TimsSlice
| cls_Points3D.

(** [isinstance(o, c)] for the classes of [data.py]. *)
Definition isinstance (o : pyobj) (c : pyclass) : bool :=
  match o, c with
  | MzSpectrum _, cls_MzSpectrum
  | MzVector _, cls_MzVector
  | VectorizedTimsFrame _, cls_VectorizedTimsFrame
  | TimsFrame _, cls_TimsFrame
  | TimsSlice _, cls_TimsSlice
  | Points3D _, cls_Points3D => true
  | _, _ => false
  end.

Module pd.

(** [pd.DataFrame(data)] for a dict of arrays: the columns are the dict's
    items in insertion order, and arrays of different lengths are a
    [ValueError]. *)
Definition DataFrame (data : list (string * list pyobj)) : result pyobj :=
  match data with
  | [] => Ok (DataFrame [])
  | (_, c) :: rest =>
      if forallb (λ col, length col.2 =? length c)%nat rest
      then Ok (DataFrame data)
      else Raise (ValueError "All arrays must be of the same length")
  end.

(** The labels of a table's columns and its rows, each row as the cells
    under those labels. *)
Definition labels (columns : list (string * list pyobj)) : list string :=
  fst <$> columns.

Definition row (columns : list (string * list pyobj)) (i : nat)
    : option (list pyobj) :=
  mapM (λ col, col.2 !! i) columns.

Definition nrows (columns : list (string * list pyobj)) : nat :=
  match columns with
  | [] => 0%nat
  | (_, c) :: _ => length c
  end.

End pd.

(** ** The wrapper classes of [data.py] *)

Module MzSpectrum.
Section methods.
Context `{Native.Operations}.

(** The private attribute [self.__spec]: only an instance of the class
    has it. *)
Definition __spec (self : pyobj) : result Native.Spectrum :=
  match self with
  | MzSpectrum p => Ok p
  | _ => Raise (AttributeError "_MzSpectrum__spec")
  end.

Definition frame_id (self : pyobj) : result pyobj :=
  p ← __spec self; Ok (PyInt (Native.s_frame_id p)).

Definition scan_id (self : pyobj) : result pyobj :=
  p ← __spec self; Ok (PyInt (Native.s_scan_id p)).

Definition mz (self : pyobj) : result pyobj :=
  p ← __spec self; Ok (PyList (PyFloat ∘ fst <$> Native.s_peaks p)).

Definition intensity (self : pyobj) : result pyobj :=
  p ← __spec self; Ok (PyList (PyFloat ∘ snd <$> Native.s_peaks p)).

Definition __add__ (self other : pyobj) : result pyobj :=
  p ← __spec self;
  q ← __spec other;
  r ← Native.spectrum_add p q;
  Ok (MzSpectrum r).

(** [resolution] defaults to 2.  The native result is returned as it
    is. *)
Definition to_resolution (self : pyobj) (resolution : option Z)
    : result pyobj :=
  p ← __spec self;
  r ← Native.spectrum_toResolution p (default 2 resolution);
  Ok (PyNative (NSpectrum r)).

End methods.
End MzSpectrum.

Module MzVector.
Section methods.
Context `{Native.Operations}.

Definition __vec (self : pyobj) : result Native.SparseVector :=
  match self with
  | MzVector p => Ok p
  | _ => Raise (AttributeError "_MzVector__vec")
  end.

Definition frame_id (self : pyobj) : result pyobj :=
  p ← __vec self; Ok (PyInt (Native.v_frame_id p)).

Definition scan_id (self : pyobj) : result pyobj :=
  p ← __vec self; Ok (PyInt (Native.v_scan_id p)).

Definition resolution (self : pyobj) : result pyobj :=
  p ← __vec self; Ok (PyInt (Native.v_resolution p)).

Definition indices (self : pyobj) : result pyobj :=
  p ← __vec self; Ok (PyList (PyInt ∘ fst <$> Native.v_entries p)).

Definition values (self : pyobj) : result pyobj :=
  p ← __vec self; Ok (PyList (PyFloat ∘ snd <$> Native.v_entries p)).

Definition __add__ (self other : pyobj) : result pyobj :=
  p ← __vec self;
  q ← __vec other;
  r ← Native.vector_add p q;
  Ok (MzVector r).

End methods.
End MzVector.

Module VectorizedTimsFrame.
Section methods.
Context `{Native.Operations}.

Definition __frame (self : pyobj) : result Native.VectorizedFrame :=
  match self with
  | VectorizedTimsFrame p => Ok p
  | _ => Raise (AttributeError "_VectorizedTimsFrame__frame")
  end.

Definition frame_id (self : pyobj) : result pyobj :=
  p ← __frame self; Ok (PyInt (Native.vf_frame_id p)).

Definition resolution (self : pyobj) : result pyobj :=
  p ← __frame self; Ok (PyInt (Native.vf_resolution p)).

Definition filter_ranged (self : pyobj) (scan_min scan_max : Z)
    (index_min index_max : Z) (intensity_min : Q) : result pyobj :=
  p ← __frame self;
  r ← Native.vframe_filterRanged p scan_min scan_max index_min index_max
        intensity_min;
  Ok (VectorizedTimsFrame r).

Definition get_spectra (self : pyobj) : result pyobj :=
  p ← __frame self;
  ss ← Native.vframe_getSpectra p;
  Ok (PyList (MzVector <$> ss)).

Definition __add__ (self other : pyobj) : result pyobj :=
  p ← __frame self;
  q ← __frame other;
  r ← Native.vframe_add p q;
  Ok (VectorizedTimsFrame r).

End methods.
End VectorizedTimsFrame.

Module TimsFrame.
Section methods.
Context `{Native.Operations}.

Definition __frame (self : pyobj) : result Native.Frame.t :=
  match self with
  | TimsFrame p => Ok p
  | _ => Raise (AttributeError "_TimsFrame__frame")
  end.

Definition frame_id (self : pyobj) : result pyobj :=
  p ← __frame self; Ok (PyInt (Native.Frame.getFrameId p)).

Definition scan (self : pyobj) : result pyobj :=
  p ← __frame self; Ok (PyList (PyInt <$> Native.Frame.getScans p)).

Definition mz (self : pyobj) : result pyobj :=
  p ← __frame self; Ok (PyList (PyFloat <$> Native.Frame.getMzs p)).

Definition intensity (self : pyobj) : result pyobj :=
  p ← __frame self; Ok (PyList (PyFloat <$> Native.Frame.getIntensities p)).

Definition invers_ion_mobility (self : pyobj) : result pyobj :=
  p ← __frame self;
  Ok (PyList (PyFloat <$> Native.Frame.getInverseMobilities p)).

Definition __add__ (self other : pyobj) : result pyobj :=
  p ← __frame self;
  q ← __frame other;
  r ← Native.Frame.add p q;
  Ok (TimsFrame r).

(** [resolution] defaults to 2. *)
Definition to_resolution (self : pyobj) (resolution : option Z)
    : result pyobj :=
  p ← __frame self;
  Ok (TimsFrame (Native.Frame.toResolution p (default 2 resolution))).

(** [resolution] defaults to 2. *)
Definition vectorized (self : pyobj) (resolution : option Z)
    : result pyobj :=
  p ← __frame self;
  r ← Native.frame_vectorize p (default 2 resolution);
  Ok (VectorizedTimsFrame r).

Definition filter_ranged (self : pyobj) (scan_min scan_max : Z)
    (mz_min mz_max intensity_min : Q) : result pyobj :=
  p ← __frame self;
  r ← Native.Frame.filterRanged p scan_min scan_max mz_min mz_max
        intensity_min;
  Ok (TimsFrame r).

(** [resolution] defaults to 2 and [width] to 4. *)
Definition fold (self : pyobj) (resolution width : option Z)
    : result pyobj :=
  p ← __frame self;
  r ← Native.frame_fold p (default 2 resolution) (default 4 width);
  Ok (TimsFrame r).

Definition get_spectra (self : pyobj) : result pyobj :=
  p ← __frame self;
  spec_ptrs ← Native.frame_getMzSpectra p;
  Ok (PyList (MzSpectrum <$> spec_ptrs)).

End methods.
End TimsFrame.

Module Points3D.

Definition __point_ptr (self : pyobj) : result Native.Points.t :=
  match self with
  | Points3D p => Ok p
  | _ => Raise (AttributeError "_Points3D__point_ptr")
  end.

Definition get_points (self : pyobj) : result pyobj :=
  p ← __point_ptr self;
  let ids := PyInt <$> Native.Points.getFrames p in
  let scans := PyInt <$> Native.Points.getScans p in
  let mz := PyFloat <$> Native.Points.getMz p in
  let inv_ion_mob := PyFloat <$> Native.Points.getInvIonMobility p in
  let intensity := PyFloat <$> Native.Points.getIntensity p in
  pd.DataFrame [("frame", ids); ("scan", scans); ("invIonMob", inv_ion_mob);
                ("mz", mz); ("intensity", intensity)].

End Points3D.

Module TimsSlice.

Definition __slice_ptr (self : pyobj) : result Native.Slice.t :=
  match self with
  | TimsSlice p => Ok p
  | _ => Raise (AttributeError "_TimsSlice__slice_ptr")
  end.

Definition get_precursor_frames (self : pyobj) : result pyobj :=
  p ← __slice_ptr self;
  Ok (PyList (TimsFrame <$> Native.Slice.getPrecursors p)).

Definition get_fragment_frames (self : pyobj) : result pyobj :=
  p ← __slice_ptr self;
  Ok (PyList (TimsFrame <$> Native.Slice.getFragments p)).

Definition get_precursor_points (self : pyobj) : result pyobj :=
  p ← __slice_ptr self;
  Points3D.get_points (Points3D (Native.Slice.getPoints p true)).

Definition get_fragment_points (self : pyobj) : result pyobj :=
  p ← __slice_ptr self;
  Points3D.get_points (Points3D (Native.Slice.getPoints p false)).

(** [scan_min] defaults to 0, [scan_max] to 1000 and [intensity_min] to 0;
    the native call takes the scan bounds first. *)
Definition filter_ranged (self : pyobj) (mz_min mz_max : Q)
    (scan_min scan_max : option Z) (intensity_min : option Q)
    : result pyobj :=
  p ← __slice_ptr self;
  r ← Native.Slice.filterRanged p (default 0 scan_min)
        (default 1000 scan_max) mz_min mz_max (default 0%Q intensity_min);
  Ok (TimsSlice r).

End TimsSlice.

(** ** The data handle *)

(** One row of the [Frames] table of [analysis.tdf], with the columns that
    [data.py] reads: the frame id, the acquisition time in seconds and the
    type tag (0 for a precursor frame). *)
Record FrameRow := { Id : Z; Time : Q; MsMsType : Z }.

(** The collaborators of the constructor: the Bruker bridge, the sqlite
    database at a path (its [Frames] table, or the exception that reading it
    raises) and the constructor of the native handle. *)
Record World := {
  get_appropriate_so_path : result string;
  Frames : string → result (list FrameRow);
  ExposedTimsDataHandle : string → string → result Native.Handle.t
}.

(** [pd.read_sql_query("SELECT * from Frames WHERE ...", sqlite3.connect(path))]. *)
Definition read_sql_query (w : World) (where_ : FrameRow → bool) (path : string)
    : result (list FrameRow) :=
  rows ← Frames w path; Ok (List.filter where_ rows).

(** [dict(zip(keys, values))]: a later pair replaces an earlier one with the
    same key. *)
Definition dict (items : list (Z * Q)) : gmap Z Q :=
  foldl (λ d kv, <[kv.1 := kv.2]> d) ∅ items.

(** One row of the [Precursors] table of [analysis.tdf]: its [Id] column and
    the cells of its other columns. *)
Record PrecursorRow := {
  precursor_Id : Z;
  precursor_cells : list (string * pyobj)
}.

(** The [Precursors] table of the sqlite database at a path, or the
    exception that reading it raises. *)
Definition PrecursorsTable : Type := string → result (list PrecursorRow).

Module PyTimsDataHandle.

(** The attributes of a constructed handle.  [__handle] is [None] when the
    attribute was never assigned. *)
Record t := {
  dp : string;
  bp : string;
  precursor_frames : list Z;
  fragment_frames : list Z;
  meta_data : list FrameRow;
  __handle : option Native.Handle.t
}.

Definition __get_precursor_frame_ids (w : World) (dp : string)
    : result (list Z) :=
  rows ← read_sql_query w (λ r, MsMsType r =? 0) (dp +:+ "/analysis.tdf");
  Ok (map Id rows).

Definition __get_fragment_frame_ids (w : World) (dp : string)
    : result (list Z) :=
  rows ← read_sql_query w (λ r, negb (MsMsType r =? 0)) (dp +:+ "/analysis.tdf");
  Ok (map Id rows).

Definition __get_meta_data (w : World) (dp : string)
    : result (list FrameRow) :=
  read_sql_query w (λ _, true) (dp +:+ "/analysis.tdf").

(** The constructor, with what it prints.  An exception of the bridge or
    of a query leaves the constructor; an exception of the native
    constructor is caught and printed, and the object is returned without
    its [__handle]. *)
Definition __init__ (w : World) (dp : string) : list exn * result t :=
  match get_appropriate_so_path w with
  | Raise e => ([], Raise e)
  | Ok bp =>
  match __get_precursor_frame_ids w dp with
  | Raise e => ([], Raise e)
  | Ok precursor_frames =>
  match __get_fragment_frame_ids w dp with
  | Raise e => ([], Raise e)
  | Ok fragment_frames =>
  match __get_meta_data w dp with
  | Raise e => ([], Raise e)
  | Ok meta_data =>
  let self := {| dp := dp; bp := bp;
                 precursor_frames := precursor_frames;
                 fragment_frames := fragment_frames;
                 meta_data := meta_data;
                 __handle := None |} in
  match ExposedTimsDataHandle w dp bp with
  | Ok h =>
      ([], Ok {| dp := dp; bp := bp;
                 precursor_frames := precursor_frames;
                 fragment_frames := fragment_frames;
                 meta_data := meta_data;
                 __handle := Some h |})
  | Raise e => ([e], Ok self)
  end end end end end.

(** Reading [self.__handle]. *)
Definition handle (self : t) : result Native.Handle.t :=
  match __handle self with
  | Some h => Ok h
  | None => Raise (AttributeError "_PyTimsDataHandle__handle")
  end.

Definition get_frame (self : t) (frame_id : Z) : result pyobj :=
  h ← handle self;
  frame_pointer ← Native.Handle.getFrame h frame_id;
  Ok (TimsFrame frame_pointer).

Definition get_slice (self : t) (precursor_ids fragment_ids : list Z)
    : result pyobj :=
  h ← handle self;
  s ← Native.Handle.getSlice h precursor_ids fragment_ids;
  Ok (TimsSlice s).

Definition __get_frame_ids_by_type_rt_range (self : t) (rt_start rt_stop : Q)
    : list Z * list Z :=
  let frames :=
    List.filter (λ r, Qle_bool rt_start (Time r) && Qle_bool (Time r) rt_stop)
      (meta_data self) in
  (Id <$> List.filter (λ r, MsMsType r =? 0) frames,
   Id <$> List.filter (λ r, negb (MsMsType r =? 0)) frames).

Definition get_slice_rt_range (self : t) (rt_min rt_max : Q) : result pyobj :=
  let '(prec_ids, frag_ids) :=
    __get_frame_ids_by_type_rt_range self rt_min rt_max in
  get_slice self prec_ids frag_ids.

Definition frames_to_rts (self : t) (frames : list Z) : result (list Q) :=
  let d := dict (zip (Id <$> meta_data self) (Time <$> meta_data self)) in
  comprehension
    (λ x, match d !! x with Some t => Ok t | None => Raise (KeyError x) end)
    frames.

Definition rt_range_to_precursor_frame_ids (self : t) (rt_min rt_max : Q)
    : list Z :=
  let region :=
    List.filter (λ r, Qle_bool rt_min (Time r) && Qle_bool (Time r) rt_max)
      (meta_data self) in
  Id <$> List.filter (λ r, MsMsType r =? 0) region.

Definition rt_range_to_fragment_frame_ids (self : t) (rt_min rt_max : Q)
    : list Z :=
  let region :=
    List.filter (λ r, Qle_bool rt_min (Time r) && Qle_bool (Time r) rt_max)
      (meta_data self) in
  Id <$> List.filter (λ r, negb (MsMsType r =? 0)) region.



End PyTimsDataHandle.

(** ** Notions used to state the properties *)

(** Construction is atomic at a data path when it either returns a handle
    that has its storage handle, or raises. *)
Definition atomic_construction (w : World) (dp : string) : Prop :=
  (∃ self h, (PyTimsDataHandle.__init__ w dp).2 = Ok self
             ∧ PyTimsDataHandle.__handle self = Some h)
  ∨ (∃ e, (PyTimsDataHandle.__init__ w dp).2 = Raise e).

(** The metadata load of the constructor: the path of the Bruker library and
    the three queries, in the constructor's order. *)
Definition load_metadata (w : World) (dp : string)
    : result (string * list Z * list Z * list FrameRow) :=
  bp ← get_appropriate_so_path w;
  ps ← PyTimsDataHandle.__get_precursor_frame_ids w dp;
  fs ← PyTimsDataHandle.__get_fragment_frame_ids w dp;
  md ← PyTimsDataHandle.__get_meta_data w dp;
  Ok (bp, ps, fs, md).

(** The (id, acquisition time) pairs that [frames_to_rts] zips from the
    metadata table. *)
Definition id_times (rows : list FrameRow) : list (Z * Q) :=
  zip (Id <$> rows) (Time <$> rows).

(** The bucket that an event falls into at a resolution: its scan and the bin
    index of its mass. *)
Definition bucket_key (resolution : Z) (e : Native.Event) : Z * Z :=
  (Native.scan e, Binning.bin (Native.mass e) resolution).

(** The summed intensity of the events of one bucket. *)
Definition bucket_intensity (resolution : Z) (k : Z * Z)
    (es : list Native.Event) : Q :=
  foldr (λ e acc, if decide (bucket_key resolution e = k)
                  then (Native.intensity e + acc)%Q else acc) 0%Q es.

(** The cells of the row of the point table for one event of a Frame, under
    the labels [frame], [scan], [invIonMob], [mz], [intensity]. *)
Definition event_row (f : Native.Frame.t) (e : Native.Event) : list pyobj :=
  [PyInt (Native.Frame.frame_id f); PyInt (Native.scan e);
   PyFloat (Native.inverse_mobility e); PyFloat (Native.mass e);
   PyFloat (Native.intensity e)].

Definition point_row (p : Native.Points.Point) : list pyobj :=
  [PyInt (Native.Points.p_frame p); PyInt (Native.Points.p_scan p);
   PyFloat (Native.Points.p_inverse_mobility p);
   PyFloat (Native.Points.p_mass p); PyFloat (Native.Points.p_intensity p)].

Definition expected_rows (fs : list Native.Frame.t) : list (list pyobj) :=
  f ← fs; event_row f <$> Native.Frame.events f.

(** A method returns an instance of a wrapper class whenever it returns. *)
Definition returns_instance (c : pyclass) (r : result pyobj) : Prop :=
  match r with
  | Ok v => isinstance v c = true
  | Raise _ => True
  end.

(** A method returns a list of instances of a wrapper class whenever it
    returns. *)
Definition returns_instances (c : pyclass) (r : result pyobj) : Prop :=
  match r with
  | Ok (PyList vs) => Forall (λ v, isinstance v c = true) vs
  | Ok _ => False
  | Raise _ => True
  end.

(** The frames of a Slice, precursors first. *)
Definition slice_frames (s : Native.Slice.t) : list Native.Frame.t :=
  Native.Slice.precursors s ++ Native.Slice.fragments s.

(** ** Example data *)

Module Examples.

Definition event (scan : Z) (mass intensity inverse_mobility : Q)
    : Native.Event :=
  {| Native.scan := scan; Native.mass := mass;
     Native.intensity := intensity;
     Native.inverse_mobility := inverse_mobility |}.

Definition frame (frame_id : Z) (es : list Native.Event) : Native.Frame.t :=
  {| Native.Frame.frame_id := frame_id; Native.Frame.events := es |}.

(** The Frame of the binning scenario: two events of scan 1 with masses
    500.001 and 500.002. *)
Definition frame7 (im1 im2 : Q) : Native.Frame.t :=
  frame 7 [event 1 (500001 # 1000) 10 im1; event 1 (500002 # 1000) 5 im2].

Definition frame1 : Native.Frame.t := frame 1 [event 3 (400 # 1) 20 (9 # 10)].
Definition frame2 : Native.Frame.t := frame 2 [event 4 (410 # 1) 30 (8 # 10)].
Definition frame1' : Native.Frame.t := frame 1 [event 5 (420 # 1) 40 (7 # 10)].

(** A Slice with an event beyond scan 1000. *)
Definition wide_slice : Native.Slice.t :=
  {| Native.Slice.precursors :=
       [frame 1 [event 3 (400 # 1) 20 (9 # 10);
                 event 1200 (401 # 1) 25 (6 # 10)]];
     Native.Slice.fragments := [frame2] |}.

Definition table : list FrameRow :=
  [ {| Id := 1; Time := 1 # 2; MsMsType := 0 |};
    {| Id := 2; Time := 1; MsMsType := 8 |};
    {| Id := 3; Time := 3 # 2; MsMsType := 0 |};
    {| Id := 4; Time := 2; MsMsType := 8 |} ].

Definition store : Native.Handle.t :=
  {| Native.Handle.storage :=
       {[ 1 := Native.Frame.events frame1; 2 := Native.Frame.events frame2 ]} |}.

(** A world in which every collaborator answers. *)
Definition sound_world : World :=
  {| get_appropriate_so_path := Ok "libtimsdata.so";
     Frames := λ _, Ok table;
     ExposedTimsDataHandle := λ _ _, Ok store |}.

(** A world in which the native handle cannot be acquired. *)
Definition no_storage_world : World :=
  {| get_appropriate_so_path := Ok "libtimsdata.so";
     Frames := λ _, Ok table;
     ExposedTimsDataHandle := λ _ _, Raise (ExternalError "cannot open data") |}.

(** A world without the metadata database. *)
Definition no_metadata_world : World :=
  {| get_appropriate_so_path := Ok "libtimsdata.so";
     Frames := λ _, Raise (ExternalError "no such table: Frames");
     ExposedTimsDataHandle := λ _ _, Ok store |}.

(** The handle that [__init__] returns in [no_storage_world]. *)
Definition partial_handle : PyTimsDataHandle.t :=
  {| PyTimsDataHandle.dp := "exp.d";
     PyTimsDataHandle.bp := "libtimsdata.so";
     PyTimsDataHandle.precursor_frames := [1; 3];
     PyTimsDataHandle.fragment_frames := [2; 4];
     PyTimsDataHandle.meta_data := table;
     PyTimsDataHandle.__handle := None |}.

Definition ready_handle : PyTimsDataHandle.t :=
  {| PyTimsDataHandle.dp := "exp.d";
     PyTimsDataHandle.bp := "libtimsdata.so";
     PyTimsDataHandle.precursor_frames := [1; 3];
     PyTimsDataHandle.fragment_frames := [2; 4];
     PyTimsDataHandle.meta_data := table;
     PyTimsDataHandle.__handle := Some store |}.

End Examples.

Module MoreExamples.

(** A metadata table in which frame 2 has two rows. *)
Definition repeated_table : list FrameRow :=
  [ {| Id := 1; Time := 1 # 2; MsMsType := 0 |};
    {| Id := 2; Time := 1; MsMsType := 8 |};
    {| Id := 2; Time := 5; MsMsType := 8 |};
    {| Id := 3; Time := 3 # 2; MsMsType := 0 |} ].

Definition repeated_handle : PyTimsDataHandle.t :=
  {| PyTimsDataHandle.dp := "exp.d";
     PyTimsDataHandle.bp := "libtimsdata.so";
     PyTimsDataHandle.precursor_frames := [1; 3];
     PyTimsDataHandle.fragment_frames := [2; 2];
     PyTimsDataHandle.meta_data := repeated_table;
     PyTimsDataHandle.__handle := None |}.

(** A world that differs from [Examples.sound_world] in the databases at
    other paths only. *)
Definition other_paths_world : World :=
  {| get_appropriate_so_path := Ok "libtimsdata.so";
     Frames := λ path, if decide (path = "exp.d/analysis.tdf")
                       then Ok Examples.table
                       else Raise (ExternalError "unable to open database file");
     ExposedTimsDataHandle := λ _ _, Ok Examples.store |}.

(** An implementation of the native operations in which each of them fails. *)
Definition failing_operations : Native.Operations :=
  {| Native.spectrum_add := λ _ _, Raise (ExternalError "unavailable");
     Native.spectrum_toResolution := λ _ _, Raise (ExternalError "unavailable");
     Native.vector_add := λ _ _, Raise (ExternalError "unavailable");
     Native.vframe_filterRanged :=
       λ _ _ _ _ _ _, Raise (ExternalError "unavailable");
     Native.vframe_getSpectra := λ _, Raise (ExternalError "unavailable");
     Native.vframe_add := λ _ _, Raise (ExternalError "unavailable");
     Native.frame_vectorize := λ _ _, Raise (ExternalError "unavailable");
     Native.frame_fold := λ _ _ _, Raise (ExternalError "unavailable");
     Native.frame_getMzSpectra := λ _, Raise (ExternalError "unavailable") |}.

Definition spectrum : Native.Spectrum :=
  {| Native.s_frame_id := 1; Native.s_scan_id := 3;
     Native.s_peaks := [(400 # 1, 20)]%Q |}.

Definition precursor (id : Z) (mz : Q) : PrecursorRow :=
  {| precursor_Id := id; precursor_cells := [("MonoisotopicMz", PyFloat mz)] |}.

Definition precursors : PrecursorsTable :=
  λ _, Ok [precursor 1 (4005 # 10); precursor 2 (5123 # 10);
           precursor 3 (6301 # 10)].

End MoreExamples.

(** * Properties *)

(** ** Binning *)

Section binning_facts.
Import Binning.

Lemma round_close (x : Q) : (Qabs (inject_Z (round x) - x) <= 1 # 2)%Q.
Proof.
  unfold round. destruct (Qle_bool 0 x) eqn:Hx.
  - pose proof (Qfloor_le (x + (1 # 2))) as Hlo.
    pose proof (Qlt_floor (x + (1 # 2))) as Hhi.
    rewrite inject_Z_plus in Hhi.
    change (inject_Z 1) with 1%Q in Hhi.
    apply Qabs_Qle_condition. split; lra.
  - pose proof (Qfloor_le (- x + (1 # 2))) as Hlo.
    pose proof (Qlt_floor (- x + (1 # 2))) as Hhi.
    rewrite inject_Z_plus in Hhi. rewrite inject_Z_opp.
    change (inject_Z 1) with 1%Q in Hhi.
    apply Qabs_Qle_condition. split; lra.
Qed.

Lemma pow10_pos (r : Z) : (0 < 10 ^ r)%Q.
Proof. apply Qpower_0_lt. reflexivity. Qed.

Lemma scaled_close (n v p : Q) :
  (0 < p)%Q → (Qabs (n - v * p) <= 1 # 2)%Q →
  (Qabs (n / p - v) <= (1 # 2) * / p)%Q.
Proof.
  intros Hp Hn.
  assert (Hq : (0 < / p)%Q) by (apply Qinv_lt_0_compat; exact Hp).
  assert (Heq : (n / p - v == (n - v * p) * / p)%Q).
  { field. intros H0. rewrite H0 in Hp. inversion Hp. }
  rewrite Heq, Qabs_Qmult, (Qabs_pos (/ p)) by (apply Qlt_le_weak; exact Hq).
  apply Qmult_le_compat_r; [exact Hn | apply Qlt_le_weak; exact Hq].
Qed.

(** C7.  For every value and every resolution, unbinning the bin of the
    value gives a value within [0.5 * 10^-resolution] of it.  The bound
    holds for every integer resolution, so in particular for the validated
    ones (non-negative, up to the practical ceiling). *)
Theorem binning_round_trip (value : Q) (resolution : Z) :
  (Qabs (unbin (bin value resolution) resolution - value)
     <= (1 # 2) * 10 ^ (- resolution))%Q.
Proof.
  unfold unbin, bin. rewrite Qpower_opp.
  apply scaled_close; [apply pow10_pos | apply round_close].
Qed.

Lemma round_comp (x y : Q) : (x == y)%Q → round x = round y.
Proof.
  intros Hxy. unfold round.
  assert (Hb : Qle_bool 0 x = Qle_bool 0 y).
  { destruct (Qle_bool 0 x) eqn:Hx, (Qle_bool 0 y) eqn:Hy; try reflexivity.
    - apply Qle_bool_iff in Hx. rewrite Hxy in Hx.
      apply Qle_bool_iff in Hx. congruence.
    - apply Qle_bool_iff in Hy. rewrite <- Hxy in Hy.
      apply Qle_bool_iff in Hy. congruence. }
  rewrite Hb. destruct (Qle_bool 0 y).
  - apply Qfloor_comp. rewrite Hxy. reflexivity.
  - f_equal. apply Qfloor_comp. rewrite Hxy. reflexivity.
Qed.

Lemma floor_between (x : Q) (z : Z) :
  (inject_Z z <= x)%Q → (x < inject_Z (z + 1))%Q → Qfloor x = z.
Proof.
  intros Hlo Hhi.
  pose proof (Qfloor_le x) as Hfl. pose proof (Qlt_floor x) as Hfh.
  assert (H1 : Qfloor x < z + 1).
  { rewrite Zlt_Qlt. eapply Qle_lt_trans; eassumption. }
  assert (H2 : z < Qfloor x + 1).
  { rewrite Zlt_Qlt. eapply Qle_lt_trans; eassumption. }
  lia.
Qed.

Lemma round_inject_Z (z : Z) : round (inject_Z z) = z.
Proof.
  unfold round. destruct (Qle_bool 0 (inject_Z z)).
  - apply floor_between; rewrite ?inject_Z_plus;
      change (inject_Z 1) with 1%Q; lra.
  - assert (Hf : Qfloor (- inject_Z z + (1 # 2)) = - z).
    { apply floor_between; rewrite ?inject_Z_plus, ?inject_Z_opp;
        change (inject_Z 1) with 1%Q; lra. }
    rewrite Hf. lia.
Qed.

Lemma bin_unbin (index resolution : Z) :
  bin (unbin index resolution) resolution = index.
Proof.
  unfold bin, unbin. rewrite <- (round_inject_Z index) at 2.
  apply round_comp. field.
  intros H0. pose proof (pow10_pos resolution) as Hp.
  rewrite H0 in Hp. inversion Hp.
Qed.

End binning_facts.

(** ** Comprehensions *)

Section comprehension_facts.
Context {A B : Type} (f : A → result B).

Lemma comprehension_Ok (xs : list A) (ys : list B) :
  comprehension f xs = Ok ys ↔ Forall2 (λ x y, f x = Ok y) xs ys.
Proof.
  revert ys. induction xs as [|x xs IH]; intros ys; simpl.
  - split.
    + intros [= <-]. constructor.
    + intros Hall. inversion Hall. reflexivity.
  - destruct (f x) as [y|e] eqn:Hfx; simpl.
    + destruct (comprehension f xs) as [ys'|e] eqn:Hrest; simpl.
      * split.
        -- intros [= <-]. constructor; [exact Hfx | by apply IH].
        -- intros Hall. inversion Hall as [|? y0 ? ys0 Hy Htl]; subst.
           apply IH in Htl. congruence.
      * split; [discriminate|].
        intros Hall. inversion Hall as [|? y0 ? ys0 Hy Htl]; subst.
        apply IH in Htl. discriminate.
    + split; [discriminate|].
      intros Hall. inversion Hall; subst. congruence.
Qed.

Lemma comprehension_total (xs : list A) :
  Forall (λ x, ∃ y, f x = Ok y) xs → ∃ ys, comprehension f xs = Ok ys.
Proof.
  induction 1 as [|x xs [y Hy] _ [ys Hys]]; simpl.
  - by eexists.
  - rewrite Hy, Hys. by eexists.
Qed.

Lemma comprehension_Raise (pre : list A) (x : A) (post : list A) (e : exn) :
  Forall (λ y, ∃ z, f y = Ok z) pre → f x = Raise e →
  comprehension f (pre ++ x :: post) = Raise e.
Proof.
  intros Hpre Hx. induction Hpre as [|y pre [z Hz] _ IH]; simpl.
  - by rewrite Hx.
  - by rewrite Hz, IH.
Qed.

End comprehension_facts.

Lemma Forall2_impl_Forall {A B} (P Q : A → B → Prop) (R : A → Prop)
    (xs : list A) (ys : list B) :
  Forall R xs → Forall2 P xs ys → (∀ x y, R x → P x y → Q x y) →
  Forall2 Q xs ys.
Proof.
  intros HR HP Himpl. revert HR.
  induction HP as [|x y xs ys Hxy _ IH]; intros HR; [constructor|].
  inversion HR; subst. constructor; auto.
Qed.

Lemma sublist_List_filter {A} (p : A → bool) (xs : list A) :
  sublist (List.filter p xs) xs.
Proof.
  induction xs as [|x xs IH]; simpl; [constructor|].
  destruct (p x); by constructor.
Qed.

(** ** The data handle *)

Section data_handle_facts.
Import PyTimsDataHandle.

Lemma get_frame_without_handle (self : t) (frame_id : Z) :
  __handle self = None →
  get_frame self frame_id = Raise (AttributeError "_PyTimsDataHandle__handle").
Proof. intros Hnone. unfold get_frame, handle. by rewrite Hnone. Qed.

Lemma get_slice_without_handle (self : t) (precursor_ids fragment_ids : list Z) :
  __handle self = None →
  get_slice self precursor_ids fragment_ids
  = Raise (AttributeError "_PyTimsDataHandle__handle").
Proof. intros Hnone. unfold get_slice, handle. by rewrite Hnone. Qed.

(** C1, as stated, fails: where the native handle cannot be acquired the
    constructor neither makes the handle Ready nor raises. *)
Lemma construction_not_atomic :
  ¬ atomic_construction Examples.no_storage_world "exp.d".
Proof.
  intros [(self & h & Hinit & Hhandle) | (e & Hinit)].
  - vm_compute in Hinit. injection Hinit as <-. discriminate Hhandle.
  - vm_compute in Hinit. discriminate Hinit.
Qed.

(** C1, amended.  Construction is atomic in the metadata load only.  When
    the bridge or one of the three metadata queries raises, the
    constructor raises that exception and prints nothing.  When they
    succeed and the native handle is acquired, the handle is Ready.  When
    they succeed and acquiring the native handle raises, the exception is
    printed and the constructor returns a handle without its storage
    handle: [get_frame] and [get_slice] raise [AttributeError] on it, and
    the metadata lookup [frames_to_rts] answers as on a Ready handle. *)
Theorem construction_outcome (w : World) (dp : string) :
  match load_metadata w dp with
  | Raise e => __init__ w dp = ([], Raise e)
  | Ok (bp, ps, fs, md) =>
      let self h :=
        {| PyTimsDataHandle.dp := dp; PyTimsDataHandle.bp := bp;
           precursor_frames := ps; fragment_frames := fs;
           meta_data := md; __handle := h |} in
      match ExposedTimsDataHandle w dp bp with
      | Ok h => __init__ w dp = ([], Ok (self (Some h)))
      | Raise e =>
          __init__ w dp = ([e], Ok (self None))
          ∧ (∀ frame_id,
               get_frame (self None) frame_id
               = Raise (AttributeError "_PyTimsDataHandle__handle"))
          ∧ (∀ precursor_ids fragment_ids,
               get_slice (self None) precursor_ids fragment_ids
               = Raise (AttributeError "_PyTimsDataHandle__handle"))
          ∧ (∀ h frames,
               frames_to_rts (self None) frames
               = frames_to_rts (self (Some h)) frames)
      end
  end.
Proof.
  unfold load_metadata, __init__.
  destruct (get_appropriate_so_path w) as [bp|e]; simpl; [|reflexivity].
  destruct (__get_precursor_frame_ids w dp) as [ps|e]; simpl; [|reflexivity].
  destruct (__get_fragment_frame_ids w dp) as [fs|e]; simpl; [|reflexivity].
  destruct (__get_meta_data w dp) as [md|e]; simpl; [|reflexivity].
  destruct (ExposedTimsDataHandle w dp bp) as [h|e]; [reflexivity|].
  split_and!.
  - reflexivity.
  - intros frame_id. by apply get_frame_without_handle.
  - intros precursor_ids fragment_ids. by apply get_slice_without_handle.
  - reflexivity.
Qed.

Example construction_without_storage :
  __init__ Examples.no_storage_world "exp.d"
  = ([ExternalError "cannot open data"], Ok Examples.partial_handle).
Proof. reflexivity. Qed.

Example construction_ready :
  __init__ Examples.sound_world "exp.d" = ([], Ok Examples.ready_handle).
Proof. reflexivity. Qed.

Example construction_without_metadata :
  __init__ Examples.no_metadata_world "exp.d"
  = ([], Raise (ExternalError "no such table: Frames")).
Proof. reflexivity. Qed.

(** *** Retention-time windows *)

Lemma elem_of_filter_ids (p : FrameRow → bool) (rows : list FrameRow) (id : Z) :
  id ∈ Id <$> List.filter p rows ↔ ∃ r, r ∈ rows ∧ Id r = id ∧ p r = true.
Proof.
  rewrite list_elem_of_fmap. split.
  - intros (r & -> & Hr). apply list_elem_of_In, filter_In in Hr as [Hin Hp].
    exists r. by rewrite list_elem_of_In.
  - intros (r & Hin & <- & Hp). exists r. split; [done|].
    apply list_elem_of_In, filter_In. by rewrite <- list_elem_of_In.
Qed.

Lemma filter_filter (p q : FrameRow → bool) (rows : list FrameRow) :
  List.filter q (List.filter p rows) = List.filter (λ r, p r && q r) rows.
Proof.
  induction rows as [|r rows IH]; simpl; [done|].
  destruct (p r); simpl; [destruct (q r)|]; by rewrite IH.
Qed.

Lemma in_window_iff (rt_min rt_max : Q) (r : FrameRow) :
  Qle_bool rt_min (Time r) && Qle_bool (Time r) rt_max = true
  ↔ (rt_min <= Time r)%Q ∧ (Time r <= rt_max)%Q.
Proof. by rewrite andb_true_iff, !Qle_bool_iff. Qed.

(** C2.  [get_slice_rt_range] resolves the window against the cached
    metadata table: the precursor ids are exactly the ids of the rows with
    [rt_min <= Time <= rt_max] (both bounds inclusive) and [MsMsType = 0],
    the fragment ids exactly those of the rows in the window with
    [MsMsType <> 0], both in table order, every row of the window goes to
    one of the two, and the result is that of [get_slice] on these two id
    lists. *)
Theorem get_slice_rt_range_resolves (self : t) (rt_min rt_max : Q) :
  let in_window r := (rt_min <= Time r)%Q ∧ (Time r <= rt_max)%Q in
  let ids := __get_frame_ids_by_type_rt_range self rt_min rt_max in
  (∀ id, id ∈ ids.1 ↔
     ∃ r, r ∈ meta_data self ∧ Id r = id ∧ in_window r ∧ MsMsType r = 0)
  ∧ (∀ id, id ∈ ids.2 ↔
     ∃ r, r ∈ meta_data self ∧ Id r = id ∧ in_window r ∧ MsMsType r ≠ 0)
  ∧ sublist ids.1 (Id <$> meta_data self)
  ∧ sublist ids.2 (Id <$> meta_data self)
  ∧ ids.1 ++ ids.2 ≡ₚ
      Id <$> List.filter
        (λ r, Qle_bool rt_min (Time r) && Qle_bool (Time r) rt_max)
        (meta_data self)
  ∧ get_slice_rt_range self rt_min rt_max = get_slice self ids.1 ids.2.
Proof.
  unfold get_slice_rt_range, __get_frame_ids_by_type_rt_range; simpl.
  set (w := λ r, Qle_bool rt_min (Time r) && Qle_bool (Time r) rt_max).
  split_and!.
  - intros id. rewrite filter_filter, elem_of_filter_ids.
    setoid_rewrite andb_true_iff. setoid_rewrite Z.eqb_eq.
    subst w. setoid_rewrite in_window_iff. naive_solver.
  - intros id. rewrite filter_filter, elem_of_filter_ids.
    setoid_rewrite andb_true_iff. setoid_rewrite negb_true_iff.
    setoid_rewrite Z.eqb_neq.
    subst w. setoid_rewrite in_window_iff. naive_solver.
  - apply fmap_sublist. rewrite filter_filter. apply sublist_List_filter.
  - apply fmap_sublist. rewrite filter_filter. apply sublist_List_filter.
  - rewrite <- fmap_app. apply fmap_Permutation.
    induction (List.filter w (meta_data self)) as [|r rows IH]; simpl; [done|].
    destruct (MsMsType r =? 0); simpl.
    + by rewrite IH.
    + by rewrite <- Permutation_middle, IH.
  - reflexivity.
Qed.

(** Both bounds are inclusive: frames 2 (at 1 s) and 4 (at 2 s) are in the
    window from 1 s to 2 s, frame 1 (at 0.5 s) is not. *)
Example window_bounds_inclusive :
  __get_frame_ids_by_type_rt_range Examples.ready_handle 1 2 = ([3], [2; 4]).
Proof. reflexivity. Qed.

Example slice_of_window :
  get_slice_rt_range Examples.ready_handle (1 # 2) 1
  = Ok (TimsSlice {| Native.Slice.precursors := [Examples.frame1];
                     Native.Slice.fragments := [Examples.frame2] |}).
Proof. reflexivity. Qed.

Example slice_of_empty_window :
  get_slice_rt_range Examples.ready_handle 10 20
  = Ok (TimsSlice {| Native.Slice.precursors := [];
                     Native.Slice.fragments := [] |}).
Proof. reflexivity. Qed.

(** *** Retention times of frames *)

Lemma elem_of_id_times (rows : list FrameRow) (x : Z) (t : Q) :
  (x, t) ∈ id_times rows ↔ ∃ r, r ∈ rows ∧ Id r = x ∧ Time r = t.
Proof.
  unfold id_times. induction rows as [|r rows IH]; simpl.
  - split; [by intros ?%elem_of_nil | by intros (? & ?%elem_of_nil & _)].
  - rewrite elem_of_cons, IH. split.
    + intros [[= -> ->] | (r' & Hin & Hid & Ht)].
      * exists r. by rewrite elem_of_cons; auto.
      * exists r'. rewrite elem_of_cons. auto.
    + intros (r' & [-> | Hin]%elem_of_cons & <- & <-); [by left|].
      right. by exists r'.
Qed.

Lemma dict_lookup_Some (items : list (Z * Q)) (d : gmap Z Q) (x : Z) (t : Q) :
  foldl (λ d kv, <[kv.1 := kv.2]> d) d items !! x = Some t →
  (x, t) ∈ items ∨ d !! x = Some t.
Proof.
  revert d. induction items as [|[k v] items IH]; intros d; simpl; [auto|].
  intros [Hin | Hd]%IH.
  - left. by right.
  - destruct (decide (k = x)) as [->|Hne].
    + rewrite lookup_insert_eq in Hd. injection Hd as ->. left. by left.
    + rewrite lookup_insert_ne in Hd by done. by right.
Qed.

Lemma dict_lookup_is_Some (items : list (Z * Q)) (d : gmap Z Q) (x : Z) :
  x ∈ items.*1 ∨ is_Some (d !! x) →
  is_Some (foldl (λ d kv, <[kv.1 := kv.2]> d) d items !! x).
Proof.
  revert d. induction items as [|[k v] items IH]; intros d; simpl.
  - by intros [?%elem_of_nil | ?].
  - intros [[-> | Hin]%elem_of_cons | Hd]; apply IH.
    + right. rewrite lookup_insert_eq. by eexists.
    + by left.
    + right. destruct (decide (k = x)) as [->|Hne].
      * rewrite lookup_insert_eq. by eexists.
      * by rewrite lookup_insert_ne.
Qed.

Lemma id_times_keys (rows : list FrameRow) : (id_times rows).*1 = Id <$> rows.
Proof.
  unfold id_times. apply fst_zip. by rewrite !length_fmap.
Qed.

Lemma lookup_present (self : t) (x : Z) :
  x ∈ Id <$> meta_data self →
  ∃ r, r ∈ meta_data self ∧ Id r = x
       ∧ dict (id_times (meta_data self)) !! x = Some (Time r).
Proof.
  intros Hx.
  destruct (dict_lookup_is_Some (id_times (meta_data self)) ∅ x) as [t Ht].
  { left. by rewrite id_times_keys. }
  pose proof Ht as Hitem. apply dict_lookup_Some in Hitem as [Hitem | Hempty].
  - apply elem_of_id_times in Hitem as (r & Hin & Hid & <-). by exists r.
  - by rewrite lookup_empty in Hempty.
Qed.

Lemma lookup_absent (self : t) (x : Z) :
  x ∉ Id <$> meta_data self → dict (id_times (meta_data self)) !! x = None.
Proof.
  intros Hx. apply eq_None_not_Some. intros [t Ht].
  apply dict_lookup_Some in Ht as [Hitem | Hempty].
  - apply Hx. rewrite <- id_times_keys. apply list_elem_of_fmap.
    by exists (x, t).
  - by rewrite lookup_empty in Hempty.
Qed.

(** C3.  [frames_to_rts] is a lookup against the cached metadata.  When
    every id is one of the table, it returns, in the order of the ids, for
    each id the acquisition time of a row with that id.  When some id is
    not in the table, it raises [KeyError] (the lookup's not-found error)
    carrying the first such id; nothing is dropped.  The answer depends on
    the metadata table alone. *)
Theorem frames_to_rts_lookup (self : t) (frames : list Z) :
  (Forall (λ x, x ∈ Id <$> meta_data self) frames →
     ∃ rts, frames_to_rts self frames = Ok rts
            ∧ Forall2 (λ x rt, ∃ r, r ∈ meta_data self ∧ Id r = x ∧ Time r = rt)
                frames rts)
  ∧ (∀ pre x post,
       frames = pre ++ x :: post →
       Forall (λ y, y ∈ Id <$> meta_data self) pre →
       x ∉ Id <$> meta_data self →
       frames_to_rts self frames = Raise (KeyError x))
  ∧ (∀ other, meta_data other = meta_data self →
       frames_to_rts other frames = frames_to_rts self frames).
Proof.
  unfold frames_to_rts. fold (id_times (meta_data self)).
  set (d := dict (id_times (meta_data self))).
  split_and!.
  - intros Hall.
    destruct (comprehension_total
      (λ x, match d !! x with Some t => Ok t | None => Raise (KeyError x) end)
      frames) as [rts Hrts].
    { eapply Forall_impl; [exact Hall|]. intros x Hx.
      apply lookup_present in Hx as (r & _ & _ & Hr).
      subst d. rewrite Hr. by eexists. }
    exists rts. split; [exact Hrts|].
    apply comprehension_Ok in Hrts.
    eapply Forall2_impl_Forall; [exact Hall | exact Hrts |].
    intros x rt Hx Hlook. simpl in Hlook.
    apply lookup_present in Hx as (r & Hin & Hid & Hr).
    subst d. rewrite Hr in Hlook. injection Hlook as <-. by exists r.
  - intros pre x post -> Hpre Hx. apply comprehension_Raise.
    + eapply Forall_impl; [exact Hpre|]. intros y Hy.
      apply lookup_present in Hy as (r & _ & _ & Hr).
      subst d. rewrite Hr. by eexists.
    + subst d. by rewrite lookup_absent.
  - intros other ->. reflexivity.
Qed.

(** C3 at the example table: the times of frames 3 and 1, and the missing
    frame 9. *)
Lemma frames_to_rts_lookup_witness :
  frames_to_rts Examples.partial_handle [3; 1] = Ok [3 # 2; 1 # 2]%Q
  ∧ frames_to_rts Examples.partial_handle [3; 9; 1] = Raise (KeyError 9).
Proof.
  split.
  - destruct (frames_to_rts_lookup Examples.partial_handle [3; 1])
      as [Hfound _].
    destruct Hfound as (rts & Hrts & _).
    + repeat constructor; vm_compute; tauto.
    + rewrite Hrts. vm_compute in Hrts. congruence.
  - destruct (frames_to_rts_lookup Examples.partial_handle [3; 9; 1])
      as (_ & Hmissing & _).
    apply (Hmissing [3] 9 [1]).
    + reflexivity.
    + repeat constructor.
    + intros Hin. vm_compute in Hin.
      repeat (apply elem_of_cons in Hin as [Hin | Hin]; [discriminate|]).
      by apply elem_of_nil in Hin.
Defined.

End data_handle_facts.

(** ** Frames *)

Section frame_facts.
Import Native.

(** C4.  Merging two Frames whose [frame_id]s differ raises
    [IdentityMismatch], naming both ids; no merged Frame is returned. *)
Theorem merge_identity_mismatch (X Y : Frame.t) :
  Frame.frame_id X ≠ Frame.frame_id Y →
  TimsFrame.__add__ (TimsFrame X) (TimsFrame Y)
  = Raise (IdentityMismatch (Frame.frame_id X) (Frame.frame_id Y)).
Proof.
  intros Hne. unfold TimsFrame.__add__, Frame.add; simpl.
  by rewrite decide_False.
Qed.

(** C4 for a Frame with [frame_id = 1] and a Frame with [frame_id = 2]. *)
Lemma merge_identity_mismatch_witness :
  TimsFrame.__add__ (TimsFrame Examples.frame1) (TimsFrame Examples.frame2)
  = Raise (IdentityMismatch 1 2).
Proof.
  apply (merge_identity_mismatch Examples.frame1 Examples.frame2).
  simpl. lia.
Defined.

(** C5.  For two Frames with equal [frame_id], the merge returns a Frame
    with that id whose events are the events of the left operand followed
    by those of the right one: nothing is deduplicated and no intensity is
    accumulated.  Its events are therefore the multiset union of the
    operands' events, and merging in the other order gives the same events
    up to order. *)
Theorem merge_concatenates (X Y : Frame.t) :
  Frame.frame_id X = Frame.frame_id Y →
  ∃ XY YX,
    TimsFrame.__add__ (TimsFrame X) (TimsFrame Y) = Ok (TimsFrame XY)
    ∧ TimsFrame.__add__ (TimsFrame Y) (TimsFrame X) = Ok (TimsFrame YX)
    ∧ Frame.frame_id XY = Frame.frame_id X
    ∧ Frame.events XY = Frame.events X ++ Frame.events Y
    ∧ Frame.events XY ≡ₚ Frame.events X ++ Frame.events Y
    ∧ Frame.events XY ≡ₚ Frame.events YX.
Proof.
  intros Hid. unfold TimsFrame.__add__, Frame.add; simpl.
  rewrite !decide_True by done. do 2 eexists.
  split_and!; try reflexivity. simpl. apply Permutation_app_comm.
Qed.

(** C5 for two Frames with [frame_id = 1]. *)
Lemma merge_concatenates_witness :
  ∃ XY YX,
    TimsFrame.__add__ (TimsFrame Examples.frame1) (TimsFrame Examples.frame1')
    = Ok (TimsFrame XY)
    ∧ TimsFrame.__add__ (TimsFrame Examples.frame1') (TimsFrame Examples.frame1)
      = Ok (TimsFrame YX)
    ∧ Frame.frame_id XY = 1
    ∧ Frame.events XY
      = [Examples.event 3 (400 # 1) 20 (9 # 10);
         Examples.event 5 (420 # 1) 40 (7 # 10)]
    ∧ Frame.events XY ≡ₚ Frame.events YX.
Proof.
  destruct (merge_concatenates Examples.frame1 Examples.frame1')
    as (XY & YX & H1 & H2 & H3 & H4 & H5 & H6); [reflexivity|].
  exists XY, YX. split_and!; assumption.
Defined.

(** *** Resolution reduction *)

Lemma key_event_of (r : Z) (b : Frame.Bucket) :
  bucket_key r (Frame.event_of r b) = (Frame.b_scan b, Frame.b_index b).
Proof. unfold bucket_key; simpl. by rewrite bin_unbin. Qed.

Lemma key_bucket_of (r : Z) (e : Event) :
  (Frame.b_scan (Frame.bucket_of r e), Frame.b_index (Frame.bucket_of r e))
  = bucket_key r e.
Proof. reflexivity. Qed.

Lemma same_bucket_iff (a b : Frame.Bucket) :
  Frame.same_bucket a b = true
  ↔ (Frame.b_scan a, Frame.b_index a) = (Frame.b_scan b, Frame.b_index b).
Proof.
  unfold Frame.same_bucket. rewrite andb_true_iff, !Z.eqb_eq.
  split; [by intros [-> ->] | by intros [= -> ->]].
Qed.

Lemma accumulate_keys (r : Z) (bs : list Frame.Bucket) (b : Frame.Bucket) :
  let keys bs := bucket_key r <$> (Frame.event_of r <$> bs) in
  keys (Frame.accumulate bs b)
  = if decide ((Frame.b_scan b, Frame.b_index b) ∈ keys bs)
    then keys bs else keys bs ++ [(Frame.b_scan b, Frame.b_index b)].
Proof.
  cbv zeta. induction bs as [|b' bs IH].
  - cbn [Frame.accumulate]. rewrite !fmap_nil, !fmap_cons, !fmap_nil.
    rewrite decide_False by apply not_elem_of_nil. by rewrite key_event_of.
  - cbn [Frame.accumulate].
    destruct (Frame.same_bucket b' b) eqn:Hsame; rewrite !fmap_cons, !key_event_of.
    + apply same_bucket_iff in Hsame. cbn [Frame.b_scan Frame.b_index].
      rewrite decide_True; [done|]. rewrite Hsame. by left.
    + rewrite IH.
      assert (Hne : (Frame.b_scan b', Frame.b_index b')
                    ≠ (Frame.b_scan b, Frame.b_index b)).
      { intros Heq%same_bucket_iff. congruence. }
      destruct (decide (_ ∈ bucket_key r <$> _)) as [Hin|Hnin].
      * rewrite decide_True; [done|]. by right.
      * rewrite decide_False; [done|].
        intros [Heq|Hin]%elem_of_cons; [by apply Hne|by apply Hnin].
Qed.

Lemma buckets_keys (r : Z) (es : list Event) (bs : list Frame.Bucket) :
  let keys bs := bucket_key r <$> (Frame.event_of r <$> bs) in
  NoDup (keys bs) →
  NoDup (keys (foldl Frame.accumulate bs (Frame.bucket_of r <$> es)))
  ∧ ∀ k, k ∈ keys (foldl Frame.accumulate bs (Frame.bucket_of r <$> es))
         ↔ k ∈ keys bs ∨ k ∈ bucket_key r <$> es.
Proof.
  cbv zeta. revert bs. induction es as [|e es IH]; intros bs Hnd.
  - rewrite !fmap_nil. cbn [foldl]. split; [done|].
    intros k. rewrite elem_of_nil. tauto.
  - rewrite !fmap_cons. cbn [foldl].
    pose proof (accumulate_keys r bs (Frame.bucket_of r e)) as Hacc.
    cbv zeta in Hacc. rewrite key_bucket_of in Hacc.
    destruct (IH (Frame.accumulate bs (Frame.bucket_of r e))) as [Hnd' Hin'].
    + rewrite Hacc. case_decide; [done|].
      apply NoDup_app. split_and!; [done| |apply NoDup_singleton].
      intros k Hk ->%list_elem_of_singleton. done.
    + split; [done|]. intros k. rewrite Hin', Hacc, elem_of_cons.
      case_decide as Hdec.
      * split; [tauto|]. intros [?|[->|?]]; auto.
      * rewrite elem_of_app, list_elem_of_singleton. tauto.
Qed.

Lemma bucket_intensity_cons (r : Z) (k : Z * Z) (e : Event) (es : list Event) :
  bucket_intensity r k (e :: es)
  = if decide (bucket_key r e = k)
    then (intensity e + bucket_intensity r k es)%Q
    else bucket_intensity r k es.
Proof. reflexivity. Qed.

Lemma accumulate_intensity (r : Z) (k : Z * Z) (bs : list Frame.Bucket)
    (b : Frame.Bucket) :
  (bucket_intensity r k (Frame.event_of r <$> Frame.accumulate bs b)
   == bucket_intensity r k (Frame.event_of r <$> bs)
      + (if decide ((Frame.b_scan b, Frame.b_index b) = k)
         then Frame.b_intensity b else 0))%Q.
Proof.
  induction bs as [|b' bs IH]; cbn [Frame.accumulate].
  - rewrite fmap_cons, !fmap_nil, bucket_intensity_cons, key_event_of.
    destruct (decide ((Frame.b_scan b, Frame.b_index b) = k));
      cbn [intensity Frame.event_of]; change (bucket_intensity r k []) with 0%Q;
      ring.
  - destruct (Frame.same_bucket b' b) eqn:Hsame;
      rewrite !fmap_cons, !bucket_intensity_cons, !key_event_of.
    + apply same_bucket_iff in Hsame.
      cbn [Frame.b_scan Frame.b_index]. rewrite <- Hsame.
      destruct (decide ((Frame.b_scan b', Frame.b_index b') = k));
        cbn [intensity Frame.event_of Frame.b_intensity]; ring.
    + destruct (decide ((Frame.b_scan b', Frame.b_index b') = k)).
      * rewrite IH. ring.
      * apply IH.
Qed.

Lemma buckets_intensity (r : Z) (k : Z * Z) (es : list Event)
    (bs : list Frame.Bucket) :
  (bucket_intensity r k
     (Frame.event_of r <$> foldl Frame.accumulate bs (Frame.bucket_of r <$> es))
   == bucket_intensity r k (Frame.event_of r <$> bs)
      + bucket_intensity r k es)%Q.
Proof.
  revert bs. induction es as [|e es IH]; intros bs.
  - rewrite fmap_nil. cbn [foldl]. change (bucket_intensity r k []) with 0%Q.
    ring.
  - rewrite fmap_cons. cbn [foldl].
    rewrite IH, accumulate_intensity, key_bucket_of, bucket_intensity_cons.
    destruct (decide (bucket_key r e = k));
      cbn [Frame.bucket_of Frame.b_intensity]; ring.
Qed.

Lemma bucket_intensity_absent (r : Z) (k : Z * Z) (es : list Event) :
  k ∉ bucket_key r <$> es → bucket_intensity r k es = 0%Q.
Proof.
  induction es as [|e es IH]; [done|].
  rewrite fmap_cons, not_elem_of_cons, bucket_intensity_cons.
  intros [Hne Hnin]. rewrite decide_False by done. auto.
Qed.

Lemma bucket_intensity_single (r : Z) (e : Event) (es : list Event) :
  NoDup (bucket_key r <$> es) → e ∈ es →
  (bucket_intensity r (bucket_key r e) es == intensity e)%Q.
Proof.
  induction es as [|e' es IH]; [by intros _ ?%elem_of_nil|].
  rewrite fmap_cons, NoDup_cons, bucket_intensity_cons.
  intros [Hnin Hnd] [->|Hin]%elem_of_cons.
  - rewrite decide_True by done.
    rewrite bucket_intensity_absent by done. ring.
  - rewrite decide_False; [by apply IH|].
    intros Heq. apply Hnin. rewrite Heq. by apply list_elem_of_fmap_2.
Qed.

(** C6.  [to_resolution] bins every event's mass and sums the intensities
    of the events that collide in the same scan and the same bucket: the
    result has exactly one event for each bucket that an event of the
    Frame falls into, its mass is the bucket's representative value, and
    its intensity is the sum of the intensities of the Frame's events in
    that bucket.  For the Frame with [frame_id = 7] and the events
    (scan 1, mass 500.001, intensity 10) and (scan 1, mass 500.002,
    intensity 5), [to_resolution(2)] yields one event, of bucket
    [bin(500.00, 2) = 50000] and intensity 15. *)
Theorem to_resolution_accumulates (f : Frame.t) (resolution : Z) :
  let g := Frame.toResolution f resolution in
  TimsFrame.to_resolution (TimsFrame f) (Some resolution) = Ok (TimsFrame g)
  ∧ Frame.frame_id g = Frame.frame_id f
  ∧ NoDup (bucket_key resolution <$> Frame.events g)
  ∧ (∀ k, k ∈ bucket_key resolution <$> Frame.events g
          ↔ k ∈ bucket_key resolution <$> Frame.events f)
  ∧ (∀ e, e ∈ Frame.events g →
       mass e = Binning.unbin (bucket_key resolution e).2 resolution
       ∧ (intensity e
          == bucket_intensity resolution (bucket_key resolution e)
               (Frame.events f))%Q)
  ∧ (∀ im1 im2,
       TimsFrame.to_resolution (TimsFrame (Examples.frame7 im1 im2)) (Some 2)
       = Ok (TimsFrame (Examples.frame 7 [Examples.event 1 (50000 # 100) 15 im1]))
       ∧ bucket_key 2 (Examples.event 1 (50000 # 100) 15 im1) = (1, 50000))
  ∧ Binning.bin 500 2 = 50000.
Proof.
  cbv zeta. unfold Frame.toResolution, Frame.buckets.
  cbn [Frame.events Frame.frame_id].
  destruct (buckets_keys resolution (Frame.events f) []) as [Hnd Hin];
    [apply NoDup_nil_2|].
  split_and!; try done.
  - intros k. rewrite Hin, fmap_nil, elem_of_nil. tauto.
  - intros e He. split.
    + apply list_elem_of_fmap in He as (b & -> & _).
      by rewrite key_event_of.
    + rewrite <- (bucket_intensity_single resolution e _ Hnd He).
      rewrite buckets_intensity, fmap_nil.
      change (bucket_intensity resolution (bucket_key resolution e) []) with 0%Q.
      ring.
Qed.

(** C6 at the scenario's Frame: the one event of the result carries the
    summed intensity of its bucket. *)
Lemma to_resolution_accumulates_witness :
  TimsFrame.to_resolution (TimsFrame (Examples.frame7 1 2)) (Some 2)
  = Ok (TimsFrame (Examples.frame 7 [Examples.event 1 (50000 # 100) 15 1]))
  ∧ (15 == bucket_intensity 2 (1, 50000)%Z
             (Frame.events (Examples.frame7 1 2)))%Q.
Proof.
  destruct (to_resolution_accumulates (Examples.frame7 1 2) 2)
    as (_ & _ & _ & _ & Hevent & Hscenario & _).
  split.
  - apply Hscenario.
  - apply (Hevent (Examples.event 1 (50000 # 100) 15 1)). by left.
Defined.

(** *** Slices *)

Lemma filterRanged_events (f g : Frame.t) (scan_min scan_max : Z)
    (mz_min mz_max intensity_min : Q) :
  Frame.filterRanged f scan_min scan_max mz_min mz_max intensity_min = Ok g →
  Frame.frame_id g = Frame.frame_id f
  ∧ Frame.events g
    = List.filter
        (Frame.in_range scan_min scan_max mz_min mz_max intensity_min)
        (Frame.events f).
Proof.
  unfold Frame.filterRanged. case_match; [|discriminate].
  by intros [= <-].
Qed.

Lemma slice_filterRanged_total (s : Slice.t) (scan_min scan_max : Z)
    (mz_min mz_max intensity_min : Q) :
  scan_min ≤ scan_max → (mz_min <= mz_max)%Q →
  ∃ s', Slice.filterRanged s scan_min scan_max mz_min mz_max intensity_min
        = Ok s'.
Proof.
  intros Hscan Hmz. unfold Slice.filterRanged.
  assert (Hframe : ∀ fs, ∃ gs,
    comprehension (λ f, Frame.filterRanged f scan_min scan_max mz_min mz_max
                          intensity_min) fs = Ok gs).
  { intros fs. apply comprehension_total, Forall_forall. intros f _.
    unfold Frame.filterRanged.
    apply Z.leb_le in Hscan as ->. apply Qle_bool_iff in Hmz as ->.
    by eexists. }
  destruct (Hframe (Slice.precursors s)) as [ps ->].
  destruct (Hframe (Slice.fragments s)) as [fs ->].
  by eexists.
Qed.

Lemma slice_filterRanged_frames (s s' : Slice.t) (scan_min scan_max : Z)
    (mz_min mz_max intensity_min : Q) :
  Slice.filterRanged s scan_min scan_max mz_min mz_max intensity_min = Ok s' →
  Forall2 (λ f g, Frame.filterRanged f scan_min scan_max mz_min mz_max
                    intensity_min = Ok g)
    (slice_frames s) (slice_frames s').
Proof.
  unfold Slice.filterRanged, slice_frames.
  destruct (comprehension _ (Slice.precursors s)) as [ps|] eqn:Hps;
    [|discriminate].
  destruct (comprehension _ (Slice.fragments s)) as [fs|] eqn:Hfs;
    [|discriminate].
  intros [= <-]; simpl.
  apply Forall2_app; by apply comprehension_Ok.
Qed.

(** C10.  Called with mass bounds only, Slice-level [filter_ranged] runs
    the native filter with [scan_min = 0], [scan_max = 1000] and
    [intensity_min = 0].  For valid mass bounds it returns a Slice, with
    no error, and no Frame of that Slice holds an event whose scan index
    exceeds 1000: every such event of the source Slice is excluded. *)
Theorem filter_ranged_default_scan_bounds (s : Slice.t) (mz_min mz_max : Q) :
  TimsSlice.filter_ranged (TimsSlice s) mz_min mz_max None None None
  = TimsSlice.filter_ranged (TimsSlice s) mz_min mz_max
      (Some 0) (Some 1000) (Some 0%Q)
  ∧ ((mz_min <= mz_max)%Q →
     ∃ s', TimsSlice.filter_ranged (TimsSlice s) mz_min mz_max None None None
           = Ok (TimsSlice s'))
  ∧ (∀ s', TimsSlice.filter_ranged (TimsSlice s) mz_min mz_max None None None
           = Ok (TimsSlice s') →
       Forall2 (λ f g,
           Frame.frame_id g = Frame.frame_id f
           ∧ ∀ e, e ∈ Frame.events g
                  ↔ e ∈ Frame.events f
                    ∧ 0 ≤ scan e ≤ 1000
                    ∧ (mz_min <= mass e)%Q ∧ (mass e <= mz_max)%Q
                    ∧ (0 <= intensity e)%Q)
         (slice_frames s) (slice_frames s')
       ∧ ∀ e, 1000 < scan e →
              Forall (λ g, e ∉ Frame.events g) (slice_frames s')).
Proof.
  split_and!.
  - reflexivity.
  - intros Hmz.
    destruct (slice_filterRanged_total s 0 1000 mz_min mz_max 0)
      as [s' Hs']; [lia | done |].
    exists s'. unfold TimsSlice.filter_ranged; simpl. by rewrite Hs'.
  - intros s'. unfold TimsSlice.filter_ranged; simpl.
    destruct (Slice.filterRanged s 0 1000 mz_min mz_max 0) as [r|] eqn:Hr;
      simpl; [|discriminate].
    intros [= ->]. apply slice_filterRanged_frames in Hr.
    assert (Hframes : Forall2 (λ f g,
           Frame.frame_id g = Frame.frame_id f
           ∧ ∀ e, e ∈ Frame.events g
                  ↔ e ∈ Frame.events f
                    ∧ 0 ≤ scan e ≤ 1000
                    ∧ (mz_min <= mass e)%Q ∧ (mass e <= mz_max)%Q
                    ∧ (0 <= intensity e)%Q)
         (slice_frames s) (slice_frames s')).
    { eapply Forall2_impl; [exact Hr|]. intros f g Hfg; simpl in Hfg.
      apply filterRanged_events in Hfg as [Hid Hev]. split; [done|].
      intros e. rewrite Hev, list_elem_of_In, filter_In, <- list_elem_of_In.
      unfold Frame.in_range.
      rewrite !andb_true_iff, !Z.leb_le, !Qle_bool_iff. tauto. }
    split; [exact Hframes|].
    intros e He. apply Forall_forall. intros g Hg Hin.
    apply (Forall2_Forall_r _ (λ g, ∀ e, e ∈ Frame.events g → scan e ≤ 1000))
      in Hframes.
    + rewrite Forall_forall in Hframes. specialize (Hframes g Hg e Hin). lia.
    + apply Forall_forall. intros f _ g' [_ Hiff] e' He'.
      apply Hiff in He'. lia.
Qed.


(** C10 at a Slice with an event of scan 1200: the event is gone from the
    filtered Slice, and no error is raised. *)
Lemma filter_ranged_default_scan_bounds_witness :
  ∃ s', TimsSlice.filter_ranged (TimsSlice Examples.wide_slice) 0 1000
          None None None = Ok (TimsSlice s')
        ∧ Forall (λ g, Examples.event 1200 (401 # 1) 25 (6 # 10)
                       ∉ Frame.events g) (slice_frames s').
Proof.
  destruct (filter_ranged_default_scan_bounds Examples.wide_slice 0 1000)
    as (_ & Hreturns & Hexcluded).
  destruct Hreturns as [s' Hs']; [by vm_compute|].
  exists s'. split; [exact Hs'|].
  destruct (Hexcluded s' Hs') as [_ Hgone].
  apply Hgone. simpl. lia.
Defined.

(** *** The point table *)

Lemma expected_rows_points (fs : list Frame.t) :
  expected_rows fs = point_row <$> Slice.points_of fs.
Proof.
  unfold expected_rows, Slice.points_of.
  induction fs as [|f fs IH]; [done|].
  rewrite !bind_cons, fmap_app, IH. f_equal.
  rewrite <- list_fmap_compose. reflexivity.
Qed.

Lemma expected_rows_length (fs : list Frame.t) :
  length (expected_rows fs) = sum_list (length ∘ Frame.events <$> fs).
Proof.
  unfold expected_rows. induction fs as [|f fs IH]; [done|].
  rewrite bind_cons, length_app, length_fmap, IH. reflexivity.
Qed.

Lemma get_points_table (ps : list Points.Point) :
  ∃ columns,
    Points3D.get_points (Points3D ps) = Ok (DataFrame columns)
    ∧ pd.labels columns = ["frame"; "scan"; "invIonMob"; "mz"; "intensity"]
    ∧ pd.nrows columns = length ps
    ∧ ∀ i, pd.row columns i = point_row <$> ps !! i.
Proof.
  unfold Points3D.get_points; simpl. unfold pd.DataFrame.
  unfold Points.getFrames, Points.getScans, Points.getMz,
    Points.getInvIonMobility, Points.getIntensity.
  cbn [forallb snd]. rewrite !length_fmap, Nat.eqb_refl. cbn [andb].
  eexists. split_and!; [reflexivity | reflexivity | |].
  - cbn [pd.nrows]. by rewrite !length_fmap.
  - intros i. unfold pd.row. cbn [mapM snd].
    rewrite !list_lookup_fmap. by destruct (ps !! i).
Qed.

(** C8.  The point table of a Slice's precursor partition, and that of its
    fragment partition, has the five columns [frame], [scan], [invIonMob]
    (the inverse mobility), [mz] (the mass) and [intensity], and exactly
    one row for each event of each Frame of the partition: the rows follow
    the order of the Frames and, within a Frame, the order of its
    events. *)
Theorem point_table_projection (s : Slice.t) :
  (∃ columns,
     TimsSlice.get_precursor_points (TimsSlice s) = Ok (DataFrame columns)
     ∧ pd.labels columns = ["frame"; "scan"; "invIonMob"; "mz"; "intensity"]
     ∧ pd.nrows columns
       = sum_list (length ∘ Frame.events <$> Slice.precursors s)
     ∧ ∀ i, pd.row columns i = expected_rows (Slice.precursors s) !! i)
  ∧ (∃ columns,
     TimsSlice.get_fragment_points (TimsSlice s) = Ok (DataFrame columns)
     ∧ pd.labels columns = ["frame"; "scan"; "invIonMob"; "mz"; "intensity"]
     ∧ pd.nrows columns
       = sum_list (length ∘ Frame.events <$> Slice.fragments s)
     ∧ ∀ i, pd.row columns i = expected_rows (Slice.fragments s) !! i).
Proof.
  split.
  - destruct (get_points_table (Slice.getPoints s true))
      as (columns & Hget & Hlabels & Hn & Hrow).
    exists columns. split_and!; [exact Hget | exact Hlabels | |].
    + rewrite Hn, <- expected_rows_length, expected_rows_points.
      by rewrite length_fmap.
    + intros i. by rewrite Hrow, expected_rows_points, list_lookup_fmap.
  - destruct (get_points_table (Slice.getPoints s false))
      as (columns & Hget & Hlabels & Hn & Hrow).
    exists columns. split_and!; [exact Hget | exact Hlabels | |].
    + rewrite Hn, <- expected_rows_length, expected_rows_points.
      by rewrite length_fmap.
    + intros i. by rewrite Hrow, expected_rows_points, list_lookup_fmap.
Qed.

Example point_table_of_wide_slice :
  TimsSlice.get_precursor_points (TimsSlice Examples.wide_slice)
  = Ok (DataFrame
          [("frame", [PyInt 1; PyInt 1]);
           ("scan", [PyInt 3; PyInt 1200]);
           ("invIonMob", [PyFloat (9 # 10); PyFloat (6 # 10)]);
           ("mz", [PyFloat (400 # 1); PyFloat (401 # 1)]);
           ("intensity", [PyFloat 20; PyFloat 25])]).
Proof. reflexivity. Qed.

End frame_facts.

(** ** What the transformations return *)

Section wrapper_facts.
Context `{Native.Operations}.

Lemma bind_returns_instance {A} (c : pyclass) (r : result A)
    (k : A → result pyobj) :
  (∀ a, returns_instance c (k a)) → returns_instance c (r ≫= k).
Proof. intros Hk. destruct r; simpl; [apply Hk | exact I]. Qed.

Lemma bind_returns_instances {A} (c : pyclass) (r : result A)
    (k : A → result pyobj) :
  (∀ a, returns_instances c (k a)) → returns_instances c (r ≫= k).
Proof. intros Hk. destruct r; simpl; [apply Hk | exact I]. Qed.

Lemma instances_fmap {A} (c : pyclass) (wrap : A → pyobj) (ps : list A) :
  (∀ p, isinstance (wrap p) c = true) →
  returns_instances c (Ok (PyList (wrap <$> ps))).
Proof. intros Hwrap. simpl. apply Forall_fmap, Forall_forall. auto. Qed.

Ltac wrapped :=
  repeat (apply bind_returns_instance; intros ?); reflexivity.

Ltac wrapped_list :=
  repeat (apply bind_returns_instances; intros ?);
  apply instances_fmap; reflexivity.

(** C9.  [MzSpectrum.to_resolution] hands back the native object that the
    native [toResolution] returns, not an [MzSpectrum]: on its result the
    accessors of [MzSpectrum] and the [+] of [MzSpectrum], on either side,
    raise [AttributeError].  Every other transformation of the interface
    wraps what it returns in the class of [data.py] that stands for it. *)
Theorem to_resolution_of_spectrum_is_native :
  (∀ p resolution,
     MzSpectrum.to_resolution (MzSpectrum p) resolution
     = PyNative ∘ NSpectrum
         <$> Native.spectrum_toResolution p (default 2 resolution))
  ∧ (∀ self resolution,
       match MzSpectrum.to_resolution self resolution with
       | Ok v =>
           (∃ r, v = PyNative (NSpectrum r))
           ∧ isinstance v cls_MzSpectrum = false
           ∧ MzSpectrum.frame_id v = Raise (AttributeError "_MzSpectrum__spec")
           ∧ MzSpectrum.scan_id v = Raise (AttributeError "_MzSpectrum__spec")
           ∧ MzSpectrum.mz v = Raise (AttributeError "_MzSpectrum__spec")
           ∧ MzSpectrum.intensity v
             = Raise (AttributeError "_MzSpectrum__spec")
           ∧ (∀ other,
                MzSpectrum.__add__ v other
                = Raise (AttributeError "_MzSpectrum__spec"))
           ∧ (∀ other,
                MzSpectrum.__add__ other v
                = Raise (AttributeError "_MzSpectrum__spec"))
       | Raise _ => True
       end)
  ∧ (∀ self other,
       returns_instance cls_MzSpectrum (MzSpectrum.__add__ self other))
  ∧ (∀ self other,
       returns_instance cls_MzVector (MzVector.__add__ self other))
  ∧ (∀ self scan_min scan_max index_min index_max intensity_min,
       returns_instance cls_VectorizedTimsFrame
         (VectorizedTimsFrame.filter_ranged self scan_min scan_max
            index_min index_max intensity_min))
  ∧ (∀ self,
       returns_instances cls_MzVector (VectorizedTimsFrame.get_spectra self))
  ∧ (∀ self other,
       returns_instance cls_VectorizedTimsFrame
         (VectorizedTimsFrame.__add__ self other))
  ∧ (∀ self other,
       returns_instance cls_TimsFrame (TimsFrame.__add__ self other))
  ∧ (∀ self resolution,
       returns_instance cls_TimsFrame (TimsFrame.to_resolution self resolution))
  ∧ (∀ p resolution,
       TimsFrame.to_resolution (TimsFrame p) resolution
       = Ok (TimsFrame (Native.Frame.toResolution p (default 2 resolution))))
  ∧ (∀ self resolution,
       returns_instance cls_VectorizedTimsFrame
         (TimsFrame.vectorized self resolution))
  ∧ (∀ self scan_min scan_max mz_min mz_max intensity_min,
       returns_instance cls_TimsFrame
         (TimsFrame.filter_ranged self scan_min scan_max mz_min mz_max
            intensity_min))
  ∧ (∀ self resolution width,
       returns_instance cls_TimsFrame (TimsFrame.fold self resolution width))
  ∧ (∀ self, returns_instances cls_MzSpectrum (TimsFrame.get_spectra self))
  ∧ (∀ self,
       returns_instances cls_TimsFrame (TimsSlice.get_precursor_frames self))
  ∧ (∀ self,
       returns_instances cls_TimsFrame (TimsSlice.get_fragment_frames self))
  ∧ (∀ self mz_min mz_max scan_min scan_max intensity_min,
       returns_instance cls_TimsSlice
         (TimsSlice.filter_ranged self mz_min mz_max scan_min scan_max
            intensity_min))
  ∧ (∀ self frame_id,
       returns_instance cls_TimsFrame
         (PyTimsDataHandle.get_frame self frame_id))
  ∧ (∀ self precursor_ids fragment_ids,
       returns_instance cls_TimsSlice
         (PyTimsDataHandle.get_slice self precursor_ids fragment_ids))
  ∧ (∀ self rt_min rt_max,
       returns_instance cls_TimsSlice
         (PyTimsDataHandle.get_slice_rt_range self rt_min rt_max)).
Proof.
  split_and!; intros.
  - unfold MzSpectrum.to_resolution; simpl.
    by destruct (Native.spectrum_toResolution _ _).
  - unfold MzSpectrum.to_resolution.
    destruct (MzSpectrum.__spec self) as [p|]; simpl; [|exact I].
    destruct (Native.spectrum_toResolution _ _) as [r|]; simpl; [|exact I].
    split_and!; [by exists r | reflexivity.. |].
    intros other. unfold MzSpectrum.__add__.
    destruct other; reflexivity.
  - unfold MzSpectrum.__add__. wrapped.
  - unfold MzVector.__add__. wrapped.
  - unfold VectorizedTimsFrame.filter_ranged. wrapped.
  - unfold VectorizedTimsFrame.get_spectra. wrapped_list.
  - unfold VectorizedTimsFrame.__add__. wrapped.
  - unfold TimsFrame.__add__. wrapped.
  - unfold TimsFrame.to_resolution. wrapped.
  - reflexivity.
  - unfold TimsFrame.vectorized. wrapped.
  - unfold TimsFrame.filter_ranged. wrapped.
  - unfold TimsFrame.fold. wrapped.
  - unfold TimsFrame.get_spectra. wrapped_list.
  - unfold TimsSlice.get_precursor_frames. wrapped_list.
  - unfold TimsSlice.get_fragment_frames. wrapped_list.
  - unfold TimsSlice.filter_ranged. wrapped.
  - unfold PyTimsDataHandle.get_frame. wrapped.
  - unfold PyTimsDataHandle.get_slice. wrapped.
  - unfold PyTimsDataHandle.get_slice_rt_range,
      PyTimsDataHandle.__get_frame_ids_by_type_rt_range,
      PyTimsDataHandle.get_slice.
    wrapped.
Qed.

End wrapper_facts.

(** * Further properties of the data handle *)

Section comprehension_more.
Context {A B : Type} (f : A → result B).

Lemma comprehension_app (xs ys : list A) :
  comprehension f (xs ++ ys)
  = ts ← comprehension f xs; us ← comprehension f ys; Ok (ts ++ us).
Proof.
  induction xs as [|x xs IH]; simpl.
  - by destruct (comprehension f ys).
  - destruct (f x) as [y|e]; simpl; [|done].
    rewrite IH. destruct (comprehension f xs) as [ts|e]; simpl; [|done].
    by destruct (comprehension f ys).
Qed.

Lemma comprehension_length (xs : list A) (ys : list B) :
  comprehension f xs = Ok ys → length ys = length xs.
Proof.
  intros Hall%comprehension_Ok. symmetry. by eapply Forall2_length.
Qed.

End comprehension_more.

Section retention_time_facts.
Import PyTimsDataHandle.

Lemma id_times_fmap (rows : list FrameRow) :
  id_times rows = (λ r, (Id r, Time r)) <$> rows.
Proof.
  unfold id_times. induction rows as [|r rows IH]; [done|].
  rewrite !fmap_cons. cbn [zip zip_with]. by rewrite IH.
Qed.

Lemma dict_lookup_later (items : list (Z * Q)) (d : gmap Z Q) (k : Z) :
  k ∉ items.*1 →
  foldl (λ d kv, <[kv.1 := kv.2]> d) d items !! k = d !! k.
Proof.
  revert d. induction items as [|[k' v'] items IH]; intros d; [done|].
  rewrite fmap_cons, not_elem_of_cons. intros [Hne Hnin].
  cbn [foldl]. rewrite IH by done. by apply lookup_insert_ne.
Qed.

Lemma dict_lookup_last (before after : list (Z * Q)) (k : Z) (v : Q) :
  k ∉ after.*1 → dict (before ++ (k, v) :: after) !! k = Some v.
Proof.
  intros Hnin. unfold dict. rewrite foldl_app. cbn [foldl].
  rewrite dict_lookup_later by done. apply lookup_insert_eq.
Qed.

Lemma lookup_last_row (before after : list FrameRow) (r : FrameRow) :
  Id r ∉ Id <$> after →
  dict (id_times (before ++ r :: after)) !! Id r = Some (Time r).
Proof.
  intros Hnin. rewrite id_times_fmap, fmap_app, fmap_cons.
  apply dict_lookup_last. by rewrite <- list_fmap_compose.
Qed.

Lemma lookup_unique_row (rows : list FrameRow) (r : FrameRow) :
  NoDup (Id <$> rows) → r ∈ rows →
  dict (id_times rows) !! Id r = Some (Time r).
Proof.
  intros Hnd (before & after & ->)%list_elem_of_split.
  apply lookup_last_row.
  rewrite fmap_app, fmap_cons in Hnd.
  apply NoDup_app in Hnd as (_ & _ & Hnd). by apply NoDup_cons in Hnd as [? _].
Qed.

Lemma frames_to_rts_of_rows (self : t) (rows : list FrameRow) :
  NoDup (Id <$> meta_data self) →
  Forall (λ r, r ∈ meta_data self) rows →
  frames_to_rts self (Id <$> rows) = Ok (Time <$> rows).
Proof.
  intros Hnd Hrows. unfold frames_to_rts. fold (id_times (meta_data self)).
  apply comprehension_Ok, Forall2_fmap, Forall_Forall2_diag.
  eapply Forall_impl; [exact Hrows|]. intros r Hr; simpl.
  by rewrite lookup_unique_row.
Qed.

(** X1.  When the table holds several rows with one id, [frames_to_rts]
    answers with the time of the last of them: the time of a row is
    returned for its id when no later row has that id. *)
Theorem frames_to_rts_last_row (self : t) (before after : list FrameRow)
    (r : FrameRow) :
  meta_data self = before ++ r :: after →
  Id r ∉ Id <$> after →
  frames_to_rts self [Id r] = Ok [Time r].
Proof.
  intros Hmeta Hlast. unfold frames_to_rts. fold (id_times (meta_data self)).
  rewrite Hmeta. cbn [comprehension]. by rewrite lookup_last_row.
Qed.

(** X1 at a table with two rows for frame 2, at 1 s and at 5 s. *)
Lemma frames_to_rts_last_row_witness :
  frames_to_rts MoreExamples.repeated_handle [2] = Ok [5%Q].
Proof.
  apply (frames_to_rts_last_row MoreExamples.repeated_handle
           [ {| Id := 1; Time := 1 # 2; MsMsType := 0 |};
             {| Id := 2; Time := 1; MsMsType := 8 |} ]
           [ {| Id := 3; Time := 3 # 2; MsMsType := 0 |} ]
           {| Id := 2; Time := 5; MsMsType := 8 |}).
  - reflexivity.
  - intros Hin. apply list_elem_of_singleton in Hin. discriminate Hin.
Defined.

(** X2.  When the ids of the table are pairwise distinct, looking up the id
    column gives back the time column: [frames_to_rts] of all ids, in table
    order, is the list of all acquisition times. *)
Theorem frames_to_rts_of_table (self : t) :
  NoDup (Id <$> meta_data self) →
  frames_to_rts self (Id <$> meta_data self) = Ok (Time <$> meta_data self).
Proof.
  intros Hnd. apply frames_to_rts_of_rows; [exact Hnd|].
  by apply Forall_forall.
Qed.

Lemma frames_to_rts_of_table_witness :
  frames_to_rts Examples.partial_handle [1; 2; 3; 4]
  = Ok [1 # 2; 1; 3 # 2; 2]%Q.
Proof.
  apply (frames_to_rts_of_table Examples.partial_handle).
  apply (bool_decide_unpack _). vm_compute. exact I.
Defined.

(** X3.  [frames_to_rts] works id by id, from left to right: for the
    concatenation of two id lists it gives the concatenation of the two
    answers, or the first exception; an answer has as many times as there
    were ids, and no id gives no time. *)
Theorem frames_to_rts_app (self : t) (xs ys : list Z) :
  frames_to_rts self (xs ++ ys)
  = (ts ← frames_to_rts self xs; us ← frames_to_rts self ys; Ok (ts ++ us))
  ∧ (∀ ts, frames_to_rts self xs = Ok ts → length ts = length xs)
  ∧ frames_to_rts self [] = Ok [].
Proof.
  unfold frames_to_rts. split_and!.
  - apply comprehension_app.
  - intros ts. apply comprehension_length.
  - reflexivity.
Qed.

Lemma frames_to_rts_app_witness :
  frames_to_rts Examples.partial_handle ([3] ++ [1; 4]) = Ok [3 # 2; 1 # 2; 2]%Q
  ∧ length [3 # 2; 1 # 2]%Q = length [3; 1].
Proof.
  destruct (frames_to_rts_app Examples.partial_handle [3] [1; 4])
    as (Happ & _ & _).
  destruct (frames_to_rts_app Examples.partial_handle [3; 1] [])
    as (_ & Hlen & _).
  split.
  - rewrite Happ. reflexivity.
  - apply Hlen. reflexivity.
Defined.

(** X4.  When the ids of the table are pairwise distinct, the retention
    times of the frames that a window resolves to lie in the window:
    [frames_to_rts] of the precursor and fragment ids of the window from
    [rt_min] to [rt_max] succeeds and every time [t] it returns has
    [rt_min <= t <= rt_max]. *)
Theorem window_times_in_window (self : t) (rt_min rt_max : Q) :
  NoDup (Id <$> meta_data self) →
  ∃ rts,
    frames_to_rts self
      (rt_range_to_precursor_frame_ids self rt_min rt_max
       ++ rt_range_to_fragment_frame_ids self rt_min rt_max) = Ok rts
    ∧ Forall (λ rt, (rt_min <= rt)%Q ∧ (rt <= rt_max)%Q) rts.
Proof.
  intros Hnd.
  unfold rt_range_to_precursor_frame_ids, rt_range_to_fragment_frame_ids.
  rewrite !filter_filter, <- fmap_app.
  eexists. split.
  - apply frames_to_rts_of_rows; [exact Hnd|].
    apply Forall_app; split; apply Forall_forall; intros r Hr;
      apply list_elem_of_In, filter_In in Hr as [Hr _];
      by apply list_elem_of_In.
  - apply Forall_fmap, Forall_app; split; apply Forall_forall; intros r Hr;
      apply list_elem_of_In, filter_In in Hr as [_ Hr];
      apply andb_true_iff in Hr as [Hr _]; by apply in_window_iff in Hr.
Qed.

Lemma window_times_in_window_witness :
  ∃ rts,
    frames_to_rts Examples.partial_handle
      (rt_range_to_precursor_frame_ids Examples.partial_handle 1 2
       ++ rt_range_to_fragment_frame_ids Examples.partial_handle 1 2) = Ok rts
    ∧ Forall (λ rt, (1 <= rt)%Q ∧ (rt <= 2)%Q) rts.
Proof.
  apply (window_times_in_window Examples.partial_handle 1 2).
  apply (bool_decide_unpack _). vm_compute. exact I.
Defined.

End retention_time_facts.

Section window_facts.
Import PyTimsDataHandle.

(** Without distinct ids the times need not lie in the window: frame 2 is
    resolved by its row at 1 s and looked up by its row at 5 s. *)
Example window_times_repeated_id :
  frames_to_rts MoreExamples.repeated_handle
    (rt_range_to_precursor_frame_ids MoreExamples.repeated_handle 0 1
     ++ rt_range_to_fragment_frame_ids MoreExamples.repeated_handle 0 1)
  = Ok [1 # 2; 5]%Q.
Proof. reflexivity. Qed.

Lemma filter_by_type_Permutation (rows : list FrameRow) :
  List.filter (λ r, MsMsType r =? 0) rows
  ++ List.filter (λ r, negb (MsMsType r =? 0)) rows ≡ₚ rows.
Proof.
  induction rows as [|r rows IH]; simpl; [done|].
  destruct (MsMsType r =? 0); simpl.
  - by rewrite IH.
  - by rewrite <- Permutation_middle, IH.
Qed.

Lemma sublist_filter_impl {A} (p q : A → bool) (xs : list A) :
  (∀ x, p x = true → q x = true) →
  sublist (List.filter p xs) (List.filter q xs).
Proof.
  intros Himpl. induction xs as [|x xs IH]; simpl; [constructor|].
  destruct (p x) eqn:Hp.
  - rewrite (Himpl x Hp). by constructor.
  - destruct (q x); [by constructor | exact IH].
Qed.

Lemma filter_none {A} (p : A → bool) (xs : list A) :
  (∀ x, p x = false) → List.filter p xs = [].
Proof.
  intros Hp. induction xs as [|x xs IH]; simpl; [done|]. by rewrite Hp.
Qed.

(** X5.  The two public window queries return the two id lists that
    [get_slice_rt_range] passes to [get_slice]; no frame of the window is
    left out of them, and when the ids of the table are pairwise distinct no
    id is listed twice, neither within a list nor across the two. *)
Theorem window_queries_split (self : t) (rt_min rt_max : Q) :
  let prec_ids := rt_range_to_precursor_frame_ids self rt_min rt_max in
  let frag_ids := rt_range_to_fragment_frame_ids self rt_min rt_max in
  get_slice_rt_range self rt_min rt_max = get_slice self prec_ids frag_ids
  ∧ (∀ r, r ∈ meta_data self → (rt_min <= Time r)%Q → (Time r <= rt_max)%Q →
          Id r ∈ prec_ids ++ frag_ids)
  ∧ (NoDup (Id <$> meta_data self) → NoDup (prec_ids ++ frag_ids)).
Proof.
  cbv zeta.
  unfold rt_range_to_precursor_frame_ids, rt_range_to_fragment_frame_ids.
  split_and!.
  - reflexivity.
  - intros r Hin Hlo Hhi.
    rewrite <- fmap_app, filter_by_type_Permutation.
    apply list_elem_of_fmap_2, list_elem_of_In, filter_In.
    split; [by apply list_elem_of_In | by apply in_window_iff].
  - intros Hnd. rewrite <- fmap_app, filter_by_type_Permutation.
    eapply sublist_NoDup; [exact Hnd|].
    apply fmap_sublist, sublist_List_filter.
Qed.

Lemma window_queries_split_witness :
  Id {| Id := 2; Time := 1; MsMsType := 8 |}
    ∈ rt_range_to_precursor_frame_ids Examples.ready_handle 1 2
      ++ rt_range_to_fragment_frame_ids Examples.ready_handle 1 2
  ∧ NoDup (rt_range_to_precursor_frame_ids Examples.ready_handle 1 2
           ++ rt_range_to_fragment_frame_ids Examples.ready_handle 1 2).
Proof.
  destruct (window_queries_split Examples.ready_handle 1 2)
    as (_ & Hall & Hnd).
  split.
  - apply (Hall {| Id := 2; Time := 1; MsMsType := 8 |}).
    + right. by left.
    + by vm_compute.
    + by vm_compute.
  - apply Hnd. apply (bool_decide_unpack _). vm_compute. exact I.
Defined.

(** X6.  A narrower window resolves to fewer frames: the precursor ids and
    the fragment ids of a window are sublists of those of every window that
    contains it, and a window whose end lies before its start resolves to no
    frame at all. *)
Theorem window_queries_monotone (self : t) (rt_min rt_max rt_min' rt_max' : Q) :
  ((rt_min' <= rt_min)%Q → (rt_max <= rt_max')%Q →
     sublist (rt_range_to_precursor_frame_ids self rt_min rt_max)
             (rt_range_to_precursor_frame_ids self rt_min' rt_max')
     ∧ sublist (rt_range_to_fragment_frame_ids self rt_min rt_max)
               (rt_range_to_fragment_frame_ids self rt_min' rt_max'))
  ∧ ((rt_max < rt_min)%Q →
     rt_range_to_precursor_frame_ids self rt_min rt_max = []
     ∧ rt_range_to_fragment_frame_ids self rt_min rt_max = []
     ∧ get_slice_rt_range self rt_min rt_max = get_slice self [] []).
Proof.
  split.
  - intros Hlo Hhi.
    unfold rt_range_to_precursor_frame_ids, rt_range_to_fragment_frame_ids.
    rewrite !filter_filter.
    split; apply fmap_sublist, sublist_filter_impl; intros r;
      rewrite !andb_true_iff, !Qle_bool_iff; intros [[H1 H2] H3];
      (split_and!; [by eapply Qle_trans | by eapply Qle_trans | done]).
  - intros Hempty.
    assert (Hnone : List.filter
      (λ r, Qle_bool rt_min (Time r) && Qle_bool (Time r) rt_max)
      (meta_data self) = []).
    { apply filter_none. intros r. apply not_true_is_false.
      rewrite in_window_iff. intros [H1 H2].
      apply (Qlt_irrefl rt_min).
      eapply Qle_lt_trans; [|exact Hempty]. by eapply Qle_trans. }
    unfold get_slice_rt_range, __get_frame_ids_by_type_rt_range,
      rt_range_to_precursor_frame_ids, rt_range_to_fragment_frame_ids.
    by rewrite Hnone.
Qed.

Lemma window_queries_monotone_witness :
  sublist (rt_range_to_precursor_frame_ids Examples.ready_handle 1 (3 # 2))
          (rt_range_to_precursor_frame_ids Examples.ready_handle 0 2)
  ∧ rt_range_to_fragment_frame_ids Examples.ready_handle 2 1 = [].
Proof.
  destruct (window_queries_monotone Examples.ready_handle 1 (3 # 2) 0 2)
    as [Hsub _].
  destruct (window_queries_monotone Examples.ready_handle 2 1 0 0)
    as [_ Hnone].
  split.
  - apply Hsub; by vm_compute.
  - apply Hnone. reflexivity.
Defined.

(** X7.  [get_slice_rt_range] needs the storage handle even for a window
    that resolves to no frame: on a handle that was constructed without it,
    it raises [AttributeError] for every window. *)
Theorem window_slice_needs_storage (self : t) (rt_min rt_max : Q) :
  __handle self = None →
  get_slice_rt_range self rt_min rt_max
  = Raise (AttributeError "_PyTimsDataHandle__handle").
Proof.
  intros Hnone. unfold get_slice_rt_range.
  destruct (__get_frame_ids_by_type_rt_range self rt_min rt_max).
  by apply get_slice_without_handle.
Qed.

Lemma window_slice_needs_storage_witness :
  get_slice_rt_range Examples.partial_handle 10 20
  = Raise (AttributeError "_PyTimsDataHandle__handle").
Proof.
  apply (window_slice_needs_storage Examples.partial_handle 10 20).
  reflexivity.
Defined.

End window_facts.

Section constructor_facts.
Import PyTimsDataHandle.

Lemma filter_all {A} (xs : list A) : List.filter (λ _, true) xs = xs.
Proof. induction xs as [|x xs IH]; simpl; [done|]. by rewrite IH. Qed.

Lemma constructed_fields (w : World) (path : string) (self : t) :
  (__init__ w path).2 = Ok self →
  dp self = path
  ∧ get_appropriate_so_path w = Ok (bp self)
  ∧ Frames w (path +:+ "/analysis.tdf") = Ok (meta_data self)
  ∧ precursor_frames self
    = Id <$> List.filter (λ r, MsMsType r =? 0) (meta_data self)
  ∧ fragment_frames self
    = Id <$> List.filter (λ r, negb (MsMsType r =? 0)) (meta_data self).
Proof.
  unfold __init__, __get_precursor_frame_ids, __get_fragment_frame_ids,
    __get_meta_data, read_sql_query.
  destruct (get_appropriate_so_path w) as [so|]; [|discriminate].
  destruct (Frames w (path +:+ "/analysis.tdf")) as [rows|]; simpl;
    [|discriminate].
  rewrite filter_all.
  destruct (ExposedTimsDataHandle w path so); simpl; by intros [= <-].
Qed.

(** X8.  Every handle that the constructor returns, with or without its
    storage handle, keeps the data path it was given, and its two id lists
    split the cached metadata by type: [precursor_frames] are the ids of
    the rows with [MsMsType = 0], [fragment_frames] those of the other
    rows, both in table order, and together they are the ids of the
    table. *)
Theorem constructed_id_lists (w : World) (path : string) (self : t) :
  (__init__ w path).2 = Ok self →
  dp self = path
  ∧ (∀ id, id ∈ precursor_frames self
           ↔ ∃ r, r ∈ meta_data self ∧ Id r = id ∧ MsMsType r = 0)
  ∧ (∀ id, id ∈ fragment_frames self
           ↔ ∃ r, r ∈ meta_data self ∧ Id r = id ∧ MsMsType r ≠ 0)
  ∧ sublist (precursor_frames self) (Id <$> meta_data self)
  ∧ sublist (fragment_frames self) (Id <$> meta_data self)
  ∧ precursor_frames self ++ fragment_frames self ≡ₚ Id <$> meta_data self.
Proof.
  intros (Hdp & _ & _ & Hprec & Hfrag)%constructed_fields.
  rewrite Hprec, Hfrag. split_and!.
  - exact Hdp.
  - intros id. rewrite elem_of_filter_ids.
    setoid_rewrite Z.eqb_eq. naive_solver.
  - intros id. rewrite elem_of_filter_ids.
    setoid_rewrite negb_true_iff. setoid_rewrite Z.eqb_neq. naive_solver.
  - apply fmap_sublist, sublist_List_filter.
  - apply fmap_sublist, sublist_List_filter.
  - by rewrite <- fmap_app, filter_by_type_Permutation.
Qed.

Lemma constructed_id_lists_witness :
  precursor_frames Examples.partial_handle
  ++ fragment_frames Examples.partial_handle
  ≡ₚ Id <$> meta_data Examples.partial_handle.
Proof.
  destruct (constructed_id_lists Examples.no_storage_world "exp.d"
              Examples.partial_handle) as (_ & _ & _ & _ & _ & Hperm).
  - reflexivity.
  - exact Hperm.
Defined.

(** X9.  On a constructed handle every window query stays within the id
    lists of the handle: the precursor ids of a window are a sublist of
    [precursor_frames], the fragment ids a sublist of [fragment_frames],
    and a window that contains every acquisition time gives back the two
    lists themselves. *)
Theorem window_queries_within_id_lists (w : World) (path : string) (self : t)
    (rt_min rt_max : Q) :
  (__init__ w path).2 = Ok self →
  sublist (rt_range_to_precursor_frame_ids self rt_min rt_max)
          (precursor_frames self)
  ∧ sublist (rt_range_to_fragment_frame_ids self rt_min rt_max)
            (fragment_frames self)
  ∧ (Forall (λ r, (rt_min <= Time r)%Q ∧ (Time r <= rt_max)%Q)
       (meta_data self) →
     rt_range_to_precursor_frame_ids self rt_min rt_max = precursor_frames self
     ∧ rt_range_to_fragment_frame_ids self rt_min rt_max
       = fragment_frames self).
Proof.
  intros (_ & _ & _ & Hprec & Hfrag)%constructed_fields.
  rewrite Hprec, Hfrag.
  unfold rt_range_to_precursor_frame_ids, rt_range_to_fragment_frame_ids.
  split_and!.
  - apply fmap_sublist. rewrite filter_filter.
    apply sublist_filter_impl. by intros r [_ ?]%andb_true_iff.
  - apply fmap_sublist. rewrite filter_filter.
    apply sublist_filter_impl. by intros r [_ ?]%andb_true_iff.
  - intros Hall.
    assert (Hsame : List.filter
      (λ r, Qle_bool rt_min (Time r) && Qle_bool (Time r) rt_max)
      (meta_data self) = meta_data self).
    { clear Hprec Hfrag.
      induction (meta_data self) as [|r rows IH]; simpl; [done|].
      apply Forall_cons in Hall as [Hr Hall].
      apply in_window_iff in Hr as ->. by rewrite IH. }
    by rewrite Hsame.
Qed.

Lemma window_queries_within_id_lists_witness :
  sublist (rt_range_to_precursor_frame_ids Examples.ready_handle 1 2)
          (precursor_frames Examples.ready_handle)
  ∧ rt_range_to_fragment_frame_ids Examples.ready_handle 0 2
    = fragment_frames Examples.ready_handle.
Proof.
  destruct (window_queries_within_id_lists Examples.sound_world "exp.d"
              Examples.ready_handle 1 2) as (Hsub & _ & _); [reflexivity|].
  destruct (window_queries_within_id_lists Examples.sound_world "exp.d"
              Examples.ready_handle 0 2) as (_ & _ & Hall); [reflexivity|].
  split; [exact Hsub|]. apply Hall.
  repeat constructor; by vm_compute.
Defined.

(** X10.  The ids that a constructed handle lists are known to its metadata
    lookup: [frames_to_rts] of [precursor_frames] followed by
    [fragment_frames] never raises [KeyError]; it returns one time for each
    id, each the acquisition time of a row with that id. *)
Theorem constructed_ids_have_times (w : World) (path : string) (self : t) :
  (__init__ w path).2 = Ok self →
  ∃ rts,
    frames_to_rts self (precursor_frames self ++ fragment_frames self) = Ok rts
    ∧ Forall2 (λ id rt, ∃ r, r ∈ meta_data self ∧ Id r = id ∧ Time r = rt)
        (precursor_frames self ++ fragment_frames self) rts.
Proof.
  intros (_ & _ & _ & Hprec & Hfrag)%constructed_fields.
  assert (Hknown : Forall (λ id, id ∈ Id <$> meta_data self)
                     (precursor_frames self ++ fragment_frames self)).
  { rewrite Hprec, Hfrag, <- fmap_app, filter_by_type_Permutation.
    by apply Forall_forall. }
  unfold frames_to_rts. fold (id_times (meta_data self)).
  destruct (comprehension_total
    (λ x, match dict (id_times (meta_data self)) !! x with
          | Some t => Ok t | None => Raise (KeyError x) end)
    (precursor_frames self ++ fragment_frames self)) as [rts Hrts].
  { eapply Forall_impl; [exact Hknown|]. intros id Hid.
    apply lookup_present in Hid as (r & _ & _ & Hr). rewrite Hr. by eexists. }
  exists rts. split; [exact Hrts|].
  apply comprehension_Ok in Hrts.
  eapply Forall2_impl_Forall; [exact Hknown | exact Hrts |].
  intros id rt Hid Hlook; simpl in Hlook.
  apply lookup_present in Hid as (r & Hin & Hr & Ht).
  rewrite Ht in Hlook. injection Hlook as <-. by exists r.
Qed.

Lemma constructed_ids_have_times_witness :
  ∃ rts,
    frames_to_rts Examples.ready_handle
      (precursor_frames Examples.ready_handle
       ++ fragment_frames Examples.ready_handle) = Ok rts
    ∧ Forall2 (λ id rt, ∃ r, r ∈ meta_data Examples.ready_handle
                             ∧ Id r = id ∧ Time r = rt)
        (precursor_frames Examples.ready_handle
         ++ fragment_frames Examples.ready_handle) rts.
Proof.
  apply (constructed_ids_have_times Examples.sound_world "exp.d"
           Examples.ready_handle).
  reflexivity.
Defined.

(** X11.  The constructor reads the metadata from [<dp>/analysis.tdf] and
    from no other database: two worlds with the same bridge, the same native
    constructor and the same table at that path construct the same handle
    and print the same. *)
Theorem constructor_reads_one_database (w w' : World) (path : string) :
  get_appropriate_so_path w = get_appropriate_so_path w' →
  (∀ bp, ExposedTimsDataHandle w path bp = ExposedTimsDataHandle w' path bp) →
  Frames w (path +:+ "/analysis.tdf") = Frames w' (path +:+ "/analysis.tdf") →
  __init__ w path = __init__ w' path.
Proof.
  intros Hso Hctor Hdb.
  unfold __init__, __get_precursor_frame_ids, __get_fragment_frame_ids,
    __get_meta_data, read_sql_query.
  rewrite Hso, Hdb.
  destruct (get_appropriate_so_path w') as [so|]; [|done].
  by rewrite Hctor.
Qed.

Lemma constructor_reads_one_database_witness :
  __init__ Examples.sound_world "exp.d"
  = __init__ MoreExamples.other_paths_world "exp.d".
Proof.
  apply (constructor_reads_one_database Examples.sound_world
           MoreExamples.other_paths_world "exp.d"); reflexivity.
Defined.

End constructor_facts.

(** * Further properties of the wrapper classes *)

Section operand_facts.
Context `{Native.Operations}.

(** X12.  The [+] of a wrapper class accepts instances of that class only:
    when either operand is not one, it raises [AttributeError] for the
    private attribute of the class, whatever the other operand is, and the
    native [+] is not reached. *)
Theorem add_needs_instances (self other : pyobj) :
  (isinstance self cls_TimsFrame && isinstance other cls_TimsFrame = false →
     TimsFrame.__add__ self other = Raise (AttributeError "_TimsFrame__frame"))
  ∧ (isinstance self cls_MzSpectrum && isinstance other cls_MzSpectrum = false →
     MzSpectrum.__add__ self other
     = Raise (AttributeError "_MzSpectrum__spec"))
  ∧ (isinstance self cls_MzVector && isinstance other cls_MzVector = false →
     MzVector.__add__ self other = Raise (AttributeError "_MzVector__vec"))
  ∧ (isinstance self cls_VectorizedTimsFrame
     && isinstance other cls_VectorizedTimsFrame = false →
     VectorizedTimsFrame.__add__ self other
     = Raise (AttributeError "_VectorizedTimsFrame__frame")).
Proof.
  split_and!; intros Hforeign;
    destruct self, other; try discriminate Hforeign; reflexivity.
Qed.

(** X13.  [to_resolution] can be chained on frames but not on spectra: on a
    [TimsFrame] a second [to_resolution] runs on the result of the first,
    whereas [MzSpectrum.to_resolution] applied to what
    [MzSpectrum.to_resolution] returns never returns; when the first call
    returns, the second raises [AttributeError]. *)
Theorem to_resolution_chaining (self : pyobj) (p : Native.Frame.t)
    (r1 r2 : option Z) :
  match MzSpectrum.to_resolution self r1 with
  | Ok v => MzSpectrum.to_resolution v r2
            = Raise (AttributeError "_MzSpectrum__spec")
  | Raise e => True
  end
  ∧ (∀ v, MzSpectrum.to_resolution self r1
          ≫= (λ v, MzSpectrum.to_resolution v r2) ≠ Ok v)
  ∧ ∃ q, TimsFrame.to_resolution (TimsFrame p) r1
         ≫= (λ v, TimsFrame.to_resolution v r2) = Ok (TimsFrame q)
         ∧ Native.Frame.frame_id q = Native.Frame.frame_id p.
Proof.
  split_and!.
  - unfold MzSpectrum.to_resolution.
    destruct (MzSpectrum.__spec self) as [s|]; simpl; [|exact I].
    by destruct (Native.spectrum_toResolution _ _).
  - intros v. unfold MzSpectrum.to_resolution.
    destruct (MzSpectrum.__spec self) as [s|]; simpl; [|discriminate].
    destruct (Native.spectrum_toResolution _ _); simpl; discriminate.
  - eexists. split; reflexivity.
Qed.

End operand_facts.

(** X12 for a frame and a spectrum, in either order. *)
Lemma add_needs_instances_witness :
  TimsFrame.__add__ (TimsFrame Examples.frame1)
    (MzSpectrum MoreExamples.spectrum)
  = Raise (AttributeError "_TimsFrame__frame")
  ∧ MzSpectrum.__add__ (H := MoreExamples.failing_operations)
      (TimsFrame Examples.frame1) (MzSpectrum MoreExamples.spectrum)
    = Raise (AttributeError "_MzSpectrum__spec").
Proof.
  destruct (add_needs_instances (H := MoreExamples.failing_operations)
              (TimsFrame Examples.frame1) (MzSpectrum MoreExamples.spectrum))
    as (Hframe & Hspectrum & _).
  split; [apply Hframe | apply Hspectrum]; reflexivity.
Defined.

Section precursor_facts.
Import PyTimsDataHandle.



End precursor_facts.
